(** * scispacy.data_util: MedMentions (PubTator) and BIO corpus readers

    A shallow embedding of [scispacy/data_util.py] together with the
    properties of its record parser, stream iterator, corpus splitter and
    BIO sentence converter.

    Conventions of the embedding.
    - A Python [str] is a [string]; characters are 7-bit ASCII (codes above
      127 are never whitespace and are left alone by [upper]).
    - A Python [int] is a [Z].
    - A raised exception is the [Raise] constructor of [result]; the loops
      stop at the first one, as the interpreter does.
    - An opened text file is the list of the raw lines its iteration yields.
    - [cached_path], the archive extraction and the exit hook of
      [read_full_med_mentions] belong to other modules; the embedding of
      that function starts at the resolved directory. *)

From Stdlib Require Import ZArith Lia Ascii String.
From stdpp Require Import gmap strings list.

(** ** Python primitives used by the module *)

Module Py.

Inductive exn : Type :=
| IndexError
| ValueError
| KeyError (key : string)
| FileNotFoundError (name : string).

Inductive result (A : Type) : Type :=
| Ok (a : A)
| Raise (e : exn).
Arguments Ok {A} a.
Arguments Raise {A} e.

Definition bind {A B : Type} (m : result A) (k : A → result B) : result B :=
  match m with
  | Ok a => k a
  | Raise e => Raise e
  end.

(** [[f x for x in l]] where [f] may raise: left to right, first
    exception wins. *)
Fixpoint mapM {A B : Type} (f : A → result B) (l : list A) : result (list B) :=
  match l with
  | [] => Ok []
  | x :: r => bind (f x) (λ y, bind (mapM f r) (λ ys, Ok (y :: ys)))
  end.

(** [len(s)] *)
Definition len (s : string) : Z := Z.of_nat (String.length s).

(** [str.isspace] on one ASCII character: TAB, LF, VT, FF, CR, the four
    separators FS, GS, RS, US and the space. *)
Definition isspace (c : ascii) : bool :=
  let n := nat_of_ascii c in
  ((9 <=? n)%nat && (n <=? 13)%nat) || ((28 <=? n)%nat && (n <=? 32)%nat).

Fixpoint lstrip (s : string) : string :=
  match s with
  | String c r => if isspace c then lstrip r else s
  | EmptyString => EmptyString
  end.

Fixpoint rstrip (s : string) : string :=
  match s with
  | String c r =>
      match rstrip r with
      | EmptyString => if isspace c then EmptyString else String c EmptyString
      | r' => String c r'
      end
  | EmptyString => EmptyString
  end.

(** [s.strip()] *)
Definition strip (s : string) : string := rstrip (lstrip s).

(** [s.split(sep, maxsplit)] for a one-character separator, which is what
    every call site passes; [maxsplit = -1] is Python's "no limit". *)
Fixpoint split (sep : ascii) (maxsplit : Z) (s : string) : list string :=
  match s with
  | EmptyString => [EmptyString]
  | String c r =>
      if Ascii.eqb c sep && negb (maxsplit =? 0)%Z
      then EmptyString :: split sep (maxsplit - 1) r
      else match split sep maxsplit r with
           | h :: t => String c h :: t
           | [] => [String c EmptyString]
           end
  end.

(** [sep.join(l)] *)
Fixpoint join (sep : string) (l : list string) : string :=
  match l with
  | [] => EmptyString
  | x :: r =>
      match r with
      | [] => x
      | _ :: _ => x +:+ sep +:+ join sep r
      end
  end.

(** Index adjustment of a slice bound, as [PySlice_AdjustIndices] does
    for step 1. *)
Definition adjust (n i : Z) : Z :=
  if (i <? 0)%Z then Z.max (i + n) 0 else Z.min i n.

(** [s[lo:hi]]; [None] is an omitted bound. *)
Definition slice (s : string) (lo hi : option Z) : string :=
  let n := len s in
  let lo' := match lo with Some i => adjust n i | None => 0%Z end in
  let hi' := match hi with Some i => adjust n i | None => n end in
  String.substring (Z.to_nat lo') (Z.to_nat (hi' - lo')) s.

Definition upper_char (c : ascii) : ascii :=
  let n := nat_of_ascii c in
  if (97 <=? n)%nat && (n <=? 122)%nat then ascii_of_nat (n - 32) else c.

(** [s.upper()] *)
Fixpoint upper (s : string) : string :=
  match s with
  | EmptyString => EmptyString
  | String c r => String (upper_char c) (upper r)
  end.

(** [c in s] for a character [c]. *)
Fixpoint contains (c : ascii) (s : string) : bool :=
  match s with
  | EmptyString => false
  | String d r => Ascii.eqb d c || contains c r
  end.

(** [s.startswith(p)] *)
Definition startswith (s p : string) : bool := String.prefix p s.

Definition digit_val (c : ascii) : option Z :=
  let n := nat_of_ascii c in
  if (48 <=? n)%nat && (n <=? 57)%nat then Some (Z.of_nat n - 48)%Z else None.

(** Decimal digits with single underscores allowed between two digits.
    [prev] tells whether the previous character was a digit. *)
Fixpoint int_digits (acc : Z) (prev : bool) (s : string) : option Z :=
  match s with
  | EmptyString => if prev then Some acc else None
  | String c r =>
      match digit_val c with
      | Some d => int_digits (10 * acc + d) true r
      | None =>
          if Ascii.eqb c "_" && prev then int_digits acc false r else None
      end
  end.

(** [int(s)]: surrounding whitespace, an optional sign, then digits. *)
Definition int (s : string) : result Z :=
  let t := strip s in
  let signed :=
    match t with
    | String "+" r => int_digits 0 false r
    | String "-" r => Z.opp <$> int_digits 0 false r
    | _ => int_digits 0 false t
    end in
  match signed with
  | Some z => Ok z
  | None => Raise ValueError
  end.

(** [l[i]] for a non-negative constant index. *)
Definition index {A : Type} (l : list A) (i : nat) : result A :=
  match l !! i with
  | Some x => Ok x
  | None => Raise IndexError
  end.

End Py.

Import Py.

Notation "'let*' x := m 'in' k" := (bind m (λ x, k))
  (at level 10, x name, m at level 100, k at level 200, only parsing).
Notation "'let*' ' p := m 'in' k" := (bind m (λ x, match x with p => k end))
  (at level 10, p pattern, m at level 100, k at level 200, only parsing).

(** ** The BIO sentence converter *)

(** The local variables of [_handle_sentence]. *)
Record locals : Type := Locals {
  start_index : Z;
  current_index : Z;
  in_entity : bool;
  entity_type : string;
  sent : string;
  entities : list (Z * Z * string)
}.

(** The pair [(text, {"entities": spans})]; the dictionary has that one
    key and is represented by its value. *)
Definition SpacyNerExample : Type := string * list (Z * Z * string).

(** One turn of the [for word, entity in examples] loop. *)
Definition handle_word (st : locals) (we : string * string) : locals :=
  let '(word, entity) := we in
  let sent' := (sent st +:+ word) +:+ " " in
  let '(start', in', type', ents') :=
    if negb (String.eqb entity "O") then
      if in_entity st
      then (start_index st, true, entity_type st, entities st)
      else (current_index st, true, upper (slice entity (Some 2%Z) None),
            entities st)
    else
      ((-1)%Z, false, EmptyString,
       if in_entity st
       then entities st ++ [(start_index st, (current_index st - 1)%Z, entity_type st)]
       else entities st) in
  {| start_index := start';
     current_index := (current_index st + (len word + 1))%Z;
     in_entity := in';
     entity_type := type';
     sent := sent';
     entities := ents' |}.

Definition initial_locals : locals :=
  {| start_index := (-1)%Z; current_index := 0%Z; in_entity := false;
     entity_type := EmptyString; sent := EmptyString; entities := [] |}.

Definition _handle_sentence (examples : list (string * string)) : SpacyNerExample :=
  let st := fold_left handle_word examples initial_locals in
  let entities' :=
    if in_entity st
    then entities st ++ [(start_index st, (current_index st - 1)%Z, entity_type st)]
    else entities st in
  (slice (sent st) None (Some (-1)%Z), entities').

(** [read_ner_from_tsv], on the lines of the file that [cached_path]
    resolved.  [spacy_format_data] and [examples] are the two accumulators
    of the source loop. *)
Fixpoint read_ner_lines (file : list string)
    (spacy_format_data : list SpacyNerExample)
    (examples : list (string * string)) : result (list SpacyNerExample) :=
  match file with
  | [] =>
      match examples with
      | [] => Ok spacy_format_data
      | _ :: _ => Ok (spacy_format_data ++ [_handle_sentence examples])
      end
  | line :: rest =>
      let line := strip line in
      if startswith line "-DOCSTART-" then
        read_ner_lines rest spacy_format_data examples
      else
        match line with
        | EmptyString =>
            match examples with
            | [] => read_ner_lines rest spacy_format_data examples
            | _ :: _ =>
                read_ner_lines rest
                  (spacy_format_data ++ [_handle_sentence examples]) []
            end
        | String _ _ =>
            match split "009" (-1) line with
            | [word; entity] =>
                read_ner_lines rest spacy_format_data (examples ++ [(word, entity)])
            | _ => Raise ValueError
            end
        end
  end.

Definition read_ner_from_tsv (file : list string) : result (list SpacyNerExample) :=
  read_ner_lines file [] [].

(** ** The MedMentions records *)

Module MedMentionEntity.
Record t : Type := mk {
  start : Z;
  end_ : Z;
  mention_text : string;
  mention_type : string;
  umls_id : string
}.
End MedMentionEntity.

Module MedMentionExample.
Record t : Type := mk {
  title : string;
  abstract : string;
  text : string;
  pubmed_id : string;
  entities : list MedMentionEntity.t
}.
End MedMentionExample.

(** ** The PubTator record parser *)

(** [a, _, c = [x.strip() for x in line.split("|", maxsplit=2)]] *)
Definition split_header (line : string) : result (string * string) :=
  match map strip (split "|" 2 line) with
  | [a; _; c] => Ok (a, c)
  | _ => Raise ValueError
  end.

(** The body of the loop over [lines[2:]]. *)
Definition process_entity_line (entity_line : string) : result MedMentionEntity.t :=
  match split "009" (-1) entity_line with
  | [_; start; end_; mention; mention_type; umls_id] =>
      let* mention_type := index (split "," (-1) mention_type) 0 in
      let* start := int start in
      let* end_ := int end_ in
      Ok (MedMentionEntity.mk start end_ mention mention_type umls_id)
  | _ => Raise ValueError
  end.

Definition process_example (lines : list string) : result MedMentionExample.t :=
  let* line0 := index lines 0 in
  let* '(pubmed_id, title) := split_header line0 in
  let* line1 := index lines 1 in
  let* '(_, abstract) := split_header line1 in
  let* entities := mapM process_entity_line (drop 2 lines) in
  Ok (MedMentionExample.mk title abstract ((title +:+ " ") +:+ abstract)
        pubmed_id entities).

(** ** The PubTator stream iterator *)

(** What a Python generator does when it is drained: it yields values and
    then either returns or raises. *)
Inductive generator (A : Type) : Type :=
| Done
| Raised (e : exn)
| Yield (a : A) (rest : generator A).
Arguments Done {A}.
Arguments Raised {A} e.
Arguments Yield {A} a rest.

(** [yield r] for a computed [r] that may have raised instead. *)
Definition yield {A : Type} (r : result A) (rest : generator A) : generator A :=
  match r with
  | Ok a => Yield a rest
  | Raise e => Raised e
  end.

(** The loop of [med_mentions_example_iterator] over the lines that are
    left in the file, with the buffer [lines]. *)
Fixpoint iterate_lines (file : list string) (lines : list string)
  : generator MedMentionExample.t :=
  match file with
  | [] =>
      match lines with
      | [] => Done
      | _ :: _ => yield (process_example lines) Done
      end
  | line :: rest =>
      match strip line with
      | EmptyString => yield (process_example lines) (iterate_lines rest [])
      | String _ _ as line => iterate_lines rest (lines ++ [line])
      end
  end.

(** A file system: the lines of every file that can be opened. *)
Abbreviation filesystem := (gmap string (list string)).

Definition med_mentions_example_iterator (fs : filesystem) (filename : string)
  : generator MedMentionExample.t :=
  match fs !! filename with
  | None => Raised (FileNotFoundError filename)
  | Some file => iterate_lines file []
  end.

(** The values the generator yields before it stops, and the exception it
    stops with, if any. *)
Fixpoint yielded {A : Type} (g : generator A) : list A :=
  match g with
  | Yield a rest => a :: yielded rest
  | _ => []
  end.

Fixpoint raised {A : Type} (g : generator A) : option exn :=
  match g with
  | Done => None
  | Raised e => Some e
  | Yield _ rest => raised rest
  end.

(** [read_med_mentions] *)
Definition spacy_entity (x : MedMentionEntity.t) : Z * Z * string :=
  (MedMentionEntity.start x, MedMentionEntity.end_ x, MedMentionEntity.mention_type x).

Fixpoint read_med_mentions_loop (g : generator MedMentionExample.t)
    (examples : list SpacyNerExample) : result (list SpacyNerExample) :=
  match g with
  | Done => Ok examples
  | Raised e => Raise e
  | Yield example rest =>
      read_med_mentions_loop rest
        (examples ++ [(MedMentionExample.text example,
                       map spacy_entity (MedMentionExample.entities example))])
  end.

Definition read_med_mentions (fs : filesystem) (filename : string)
  : result (list SpacyNerExample) :=
  read_med_mentions_loop (med_mentions_example_iterator fs filename) [].

(** ** The corpus splitter *)

(** [os.path.join(directory, name)] for a relative [name]. *)
Definition path_join (directory name : string) : string :=
  match String.length directory with
  | O => name
  | S n =>
      if String.eqb (String.substring n 1 directory) "/"
      then directory +:+ name
      else (directory +:+ "/") +:+ name
  end.

Definition expected_names : list string :=
  [ "corpus_pubtator.txt";
    "corpus_pubtator_pmids_all.txt";
    "corpus_pubtator_pmids_dev.txt";
    "corpus_pubtator_pmids_test.txt";
    "corpus_pubtator_pmids_trng.txt" ].

(** [{x.strip() for x in open(path)}] *)
Definition read_ids (fs : filesystem) (path : string) : result (gset string) :=
  match fs !! path with
  | None => Raise (FileNotFoundError path)
  | Some file => Ok (list_to_set (map strip file))
  end.

(** An element of the returned lists: the spaCy pair or the record itself. *)
Inductive output : Type :=
| Spacy (spacy_example : SpacyNerExample)
| Record_ (example : MedMentionExample.t).

Section Splitter.
Variable label_mapping : option (gmap string string).
Variable span_only : bool.
Variable spacy_format : bool.

Definition label_function (label : string) : result string :=
  if span_only then Ok "ENTITY"
  else match label_mapping with
       | None => Ok label
       | Some mapping =>
           match mapping !! label with
           | Some l => Ok l
           | None => Raise (KeyError label)
           end
       end.

(** [[(x.start, x.end, label_function(x.mention_type)) for x in example.entities]] *)
Definition spacy_format_entities (example : MedMentionExample.t)
  : result (list (Z * Z * string)) :=
  mapM (λ x,
          let* l := label_function (MedMentionEntity.mention_type x) in
          Ok (MedMentionEntity.start x, MedMentionEntity.end_ x, l))
       (MedMentionExample.entities example).

Definition appended (example : MedMentionExample.t)
    (ents : list (Z * Z * string)) : output :=
  if spacy_format then Spacy (MedMentionExample.text example, ents)
  else Record_ example.

Variables train_ids dev_ids test_ids : gset string.

(** The [for example in examples] loop. *)
Fixpoint split_loop (examples : generator MedMentionExample.t)
    (train_examples dev_examples test_examples : list output)
  : result (list output * list output * list output) :=
  match examples with
  | Done => Ok (train_examples, dev_examples, test_examples)
  | Raised e => Raise e
  | Yield example rest =>
      let* ents := spacy_format_entities example in
      let o := appended example ents in
      let id := MedMentionExample.pubmed_id example in
      if decide (id ∈ train_ids) then
        split_loop rest (train_examples ++ [o]) dev_examples test_examples
      else if decide (id ∈ dev_ids) then
        split_loop rest train_examples (dev_examples ++ [o]) test_examples
      else if decide (id ∈ test_ids) then
        split_loop rest train_examples dev_examples (test_examples ++ [o])
      else
        split_loop rest train_examples dev_examples test_examples
  end.
End Splitter.

(** [read_full_med_mentions], from the point where
    [resolved_directory_path] is known. *)
Definition read_full_med_mentions (fs : filesystem)
    (resolved_directory_path : string)
    (label_mapping : option (gmap string string))
    (span_only spacy_format : bool)
  : result (list output * list output * list output) :=
  let* name0 := index expected_names 0 in
  let corpus := path_join resolved_directory_path name0 in
  let examples := med_mentions_example_iterator fs corpus in
  let* name4 := index expected_names 4 in
  let* train_ids := read_ids fs (path_join resolved_directory_path name4) in
  let* name2 := index expected_names 2 in
  let* dev_ids := read_ids fs (path_join resolved_directory_path name2) in
  let* name3 := index expected_names 3 in
  let* test_ids := read_ids fs (path_join resolved_directory_path name3) in
  split_loop label_mapping span_only spacy_format train_ids dev_ids test_ids
    examples [] [] [].

(** * Vocabulary of the statements *)

(** ** Words, cursors, runs and spans of a tagged sentence *)

(** The words of a tagged sentence, every word followed by one space (what
    the loop accumulates in [sent]), and the length of that string (what it
    accumulates in [current_index]). *)
Definition words (ex : list (string * string)) : list string := map fst ex.

Fixpoint spaced (ws : list string) : string :=
  match ws with
  | [] => EmptyString
  | w :: r => (w +:+ " ") +:+ spaced r
  end.

Fixpoint cursor (ex : list (string * string)) : Z :=
  match ex with
  | [] => 0%Z
  | (w, _) :: r => (len w + 1 + cursor r)%Z
  end.

Definition nonO (we : string * string) : Prop := we.2 ≠ "O".

Definition ends_O (p : list (string * string)) : Prop :=
  p = [] ∨ ∃ p' w, p = p' ++ [(w, "O")].

Definition starts_O (p : list (string * string)) : Prop :=
  p = [] ∨ ∃ w p', p = (w, "O") :: p'.

(** [run] is a maximal stretch of words whose tag is not "O", between [pre]
    and [post]. *)
Definition maximal_run (pre run post : list (string * string)) : Prop :=
  run ≠ [] ∧ Forall nonO run ∧ ends_O pre ∧ starts_O post.

(** The type of a span: the tag of the first word of the run, without its
    two-character prefix, in upper case. *)
Definition label (run : list (string * string)) : string :=
  match run with
  | [] => EmptyString
  | (_, t) :: _ => upper (slice t (Some 2%Z) None)
  end.

(** The span closed for the run after [pre]: from the cursor before its first
    word to one less than the cursor after its last word. *)
Definition span_of (pre run : list (string * string)) : Z * Z * string :=
  (cursor pre, (cursor (pre ++ run) - 1)%Z, label run).

(** The loop invariant, after the words [p]. *)
Definition open_run (p : list (string * string)) (st : locals) : Prop :=
  ∃ pre run,
    p = pre ++ run ∧ run ≠ [] ∧ Forall nonO run ∧ ends_O pre
    ∧ start_index st = cursor pre ∧ entity_type st = label run.

Definition closed_run (p : list (string * string)) (span : Z * Z * string) : Prop :=
  ∃ pre run w post,
    p = pre ++ run ++ (w, "O") :: post
    ∧ run ≠ [] ∧ Forall nonO run ∧ ends_O pre ∧ span = span_of pre run.

Definition loop_invariant (p : list (string * string)) (st : locals) : Prop :=
  current_index st = cursor p
  ∧ (in_entity st = false → ends_O p)
  ∧ (in_entity st = true → open_run p st)
  ∧ (∀ span, span ∈ entities st → closed_run p span).

(** ** Parsed annotation lines *)

(** What one accepted annotation line turns into. *)
Definition parsed_from (entity_line : string) (e : MedMentionEntity.t) : Prop :=
  ∃ pmid start end_ mention mention_type umls_id,
    split "009" (-1) entity_line
      = [pmid; start; end_; mention; mention_type; umls_id]
    ∧ int start = Ok (MedMentionEntity.start e)
    ∧ int end_ = Ok (MedMentionEntity.end_ e)
    ∧ MedMentionEntity.mention_text e = mention
    ∧ (∃ more, split "," (-1) mention_type = MedMentionEntity.mention_type e :: more)
    ∧ MedMentionEntity.umls_id e = umls_id.

(** ** Generators and results *)

(** A generator followed by another one when the first returns. *)
Fixpoint and_then {A : Type} (g k : generator A) : generator A :=
  match g with
  | Done => k
  | Raised e => Raised e
  | Yield a rest => Yield a (and_then rest k)
  end.

(** What a call ends with: nothing when it returns, the exception when it
    raises. *)
Definition exception {A : Type} (r : result A) : option exn :=
  match r with
  | Ok _ => None
  | Raise e => Some e
  end.

(** *** Routing of the documents *)

Section Routing.
Context (label_mapping : option (gmap string string)).
Context (span_only spacy_format : bool).
Context (train_ids dev_ids test_ids : gset string).

(** A document together with the element appended for it. *)
Definition rendered (item : MedMentionExample.t * output) : Prop :=
  ∃ ents,
    spacy_format_entities label_mapping span_only item.1 = Ok ents
    ∧ item.2 = appended spacy_format item.1 ents.

Definition in_train (item : MedMentionExample.t * output) : Prop :=
  MedMentionExample.pubmed_id item.1 ∈ train_ids.
Definition in_dev (item : MedMentionExample.t * output) : Prop :=
  (MedMentionExample.pubmed_id item.1 ∉ train_ids)
  ∧ (MedMentionExample.pubmed_id item.1 ∈ dev_ids).
Definition in_test (item : MedMentionExample.t * output) : Prop :=
  (MedMentionExample.pubmed_id item.1 ∉ train_ids)
  ∧ (MedMentionExample.pubmed_id item.1 ∉ dev_ids)
  ∧ (MedMentionExample.pubmed_id item.1 ∈ test_ids).

Global Instance in_train_dec item : Decision (in_train item).
Proof. unfold in_train. apply _. Defined.
Global Instance in_dev_dec item : Decision (in_dev item).
Proof. unfold in_dev. apply _. Defined.
Global Instance in_test_dec item : Decision (in_test item).
Proof. unfold in_test. apply _. Defined.

End Routing.

(** The names the splitter passes to [open]: entries 0, 2, 3 and 4 of
    [expected_names]. *)
Definition opened_names : list string :=
  [ "corpus_pubtator.txt";
    "corpus_pubtator_pmids_dev.txt";
    "corpus_pubtator_pmids_test.txt";
    "corpus_pubtator_pmids_trng.txt" ].

(** ** Inputs used in the checks *)

Definition TAB : string := String "009" EmptyString.
Definition NL : string := String "010" EmptyString.

Definition john_smith_died : list (string * string) :=
  [("John", "B-PER"); ("Smith", "I-PER"); ("died", "O")].

Definition reversed_offsets_block : list string :=
  [ "1|t|Cancer"; "1|a|Cancer is bad.";
    "1" +:+ TAB +:+ "6" +:+ TAB +:+ "0" +:+ TAB +:+ "Cancer" +:+ TAB
        +:+ "T191,T192" +:+ TAB +:+ "C0006826" ].

(** One annotation line of a PubTator block, as read from the file. *)
Definition annotation (pmid start end_ mention types umls : string) : string :=
  pmid +:+ TAB +:+ start +:+ TAB +:+ end_ +:+ TAB +:+ mention +:+ TAB
       +:+ types +:+ TAB +:+ umls +:+ NL.

Definition sample_corpus : list string :=
  [ "1|t|Cancer" +:+ NL; "1|a|Cancer is bad." +:+ NL;
    annotation "1" "0" "6" "Cancer" "T191,T192" "C0006826"; NL;
    "2|t|Flu" +:+ NL; "2|a|Flu is common." +:+ NL;
    annotation "2" "0" "3" "Flu" "T047" "C0021400"; NL;
    "3|t|Gout" +:+ NL; "3|a|Gout hurts." +:+ NL; NL;
    "4|t|Rash" +:+ NL; "4|a|A rash." +:+ NL;
    annotation "4" "7" "11" "rash" "T033" "C0015230" ].

(** A directory with the four files the splitter opens and without
    [corpus_pubtator_pmids_all.txt]. *)
Definition sample_fs : filesystem :=
  {[ "data/corpus_pubtator.txt" := sample_corpus;
     "data/corpus_pubtator_pmids_trng.txt" := ["1" +:+ NL; "2" +:+ NL];
     "data/corpus_pubtator_pmids_dev.txt" := ["2" +:+ NL];
     "data/corpus_pubtator_pmids_test.txt" := ["3" +:+ NL] ]}.

Definition doc1 : MedMentionExample.t :=
  MedMentionExample.mk "Cancer" "Cancer is bad." "Cancer Cancer is bad." "1"
    [MedMentionEntity.mk 0 6 "Cancer" "T191" "C0006826"].
Definition doc2 : MedMentionExample.t :=
  MedMentionExample.mk "Flu" "Flu is common." "Flu Flu is common." "2"
    [MedMentionEntity.mk 0 3 "Flu" "T047" "C0021400"].
Definition doc3 : MedMentionExample.t :=
  MedMentionExample.mk "Gout" "Gout hurts." "Gout Gout hurts." "3" [].
Definition doc4 : MedMentionExample.t :=
  MedMentionExample.mk "Rash" "A rash." "Rash A rash." "4"
    [MedMentionEntity.mk 7 11 "rash" "T033" "C0015230"].

Definition two_blank_lines_corpus : list string :=
  [ "1|t|Cancer" +:+ NL; "1|a|Cancer is bad." +:+ NL; NL; NL;
    "2|t|Flu" +:+ NL; "2|a|Flu is common." +:+ NL ].

(** ** Further vocabulary *)

(** The last character of a string, if any. *)
Fixpoint last_char (s : string) : option ascii :=
  match s with
  | EmptyString => None
  | String c r => match last_char r with Some d => Some d | None => Some c end
  end.

(** The spaCy pair of a record, with the raw mention types. *)
Definition spacy_of (example : MedMentionExample.t) : SpacyNerExample :=
  (MedMentionExample.text example,
   map spacy_entity (MedMentionExample.entities example)).

(** Spans in order and apart: each starts at or after [lo], ends at or after
    its start, and the next one starts at least two characters after its end;
    [next] is where a further span could start. *)
Fixpoint spans_in_order (lo : Z) (spans : list (Z * Z * string)) (next : Z) : Prop :=
  match spans with
  | [] => (lo ≤ next)%Z
  | (s, e, _) :: r => (lo ≤ s)%Z ∧ (s ≤ e)%Z ∧ spans_in_order (e + 2) r next
  end.

(** The ordering invariant of the loop. *)
Definition order_invariant (st : locals) : Prop :=
  if in_entity st
  then spans_in_order 0 (entities st) (start_index st)
       ∧ (start_index st ≤ current_index st - 1)%Z
  else spans_in_order 0 (entities st) (current_index st).

(** A span moved [c] characters to the right. *)
Definition shift (c : Z) (span : Z * Z * string) : Z * Z * string :=
  ((span.1.1 + c)%Z, (span.1.2 + c)%Z, span.2).

(** The loop run [c] characters further to the right, after the spans
    [before]. *)
Definition shifted (c : Z) (before : list (Z * Z * string)) (st st0 : locals) : Prop :=
  current_index st = (current_index st0 + c)%Z
  ∧ in_entity st = in_entity st0
  ∧ entity_type st = entity_type st0
  ∧ (in_entity st0 = true → start_index st = (start_index st0 + c)%Z)
  ∧ entities st = before ++ map (shift c) (entities st0).




(** * Properties *)

(** ** The primitives on small inputs *)

Example strip_example : strip ("  a b " +:+ TAB +:+ NL) = "a b".
Proof. reflexivity. Qed.

Example split_maxsplit_example : split "|" 2 "1|t|a|b" = ["1"; "t"; "a|b"].
Proof. reflexivity. Qed.

Example split_empty_example : split "," (-1) "" = [""].
Proof. reflexivity. Qed.

Example split_adjacent_example : split " " (-1) "a  b" = ["a"; ""; "b"].
Proof. reflexivity. Qed.

Example join_example : join " " ["a"; "b"; "c"] = "a b c".
Proof. reflexivity. Qed.

Example slice_examples :
  slice "abc" None (Some (-1)%Z) = "ab"
  ∧ slice "" None (Some (-1)%Z) = ""
  ∧ slice "B-PER" (Some 2%Z) None = "PER"
  ∧ slice "O" (Some 2%Z) None = ""
  ∧ slice "John Smith died" (Some 0%Z) (Some 10%Z) = "John Smith".
Proof. repeat split. Qed.

Example upper_example : upper "b-Per1" = "B-PER1".
Proof. reflexivity. Qed.

Example int_examples :
  int " 12 " = Ok 12%Z
  ∧ int "-5" = Ok (-5)%Z
  ∧ int "+007" = Ok 7%Z
  ∧ int "1_000" = Ok 1000%Z
  ∧ int "1__0" = Raise ValueError
  ∧ int "_1" = Raise ValueError
  ∧ int "" = Raise ValueError
  ∧ int "- 5" = Raise ValueError
  ∧ int "6a" = Raise ValueError.
Proof. repeat split. Qed.

Example path_join_examples :
  path_join "data" "x.txt" = "data/x.txt"
  ∧ path_join "data/" "x.txt" = "data/x.txt"
  ∧ path_join "" "x.txt" = "x.txt".
Proof. repeat split. Qed.

(** ** The result monad *)

Lemma bind_Ok {A B : Type} (m : result A) (k : A → result B) (b : B) :
  bind m k = Ok b → ∃ a, m = Ok a ∧ k a = Ok b.
Proof. destruct m as [a|e]; simpl; [eauto | discriminate]. Qed.

Lemma mapM_Ok {A B : Type} (f : A → result B) (l : list A) (ys : list B) :
  mapM f l = Ok ys → Forall2 (λ x y, f x = Ok y) l ys.
Proof.
  revert ys. induction l as [|x l IH]; intros ys; simpl.
  - intros [= <-]. constructor.
  - intros (y & Hy & H)%bind_Ok. apply bind_Ok in H as (ys' & Hys & [= <-]).
    constructor; auto.
Qed.

(** ** Strings *)

Lemma append_cons (c : ascii) (s t : string) :
  String c s +:+ t = String c (s +:+ t).
Proof. reflexivity. Qed.

Lemma append_empty_l (s : string) : EmptyString +:+ s = s.
Proof. reflexivity. Qed.

Lemma append_empty_r (s : string) : s +:+ EmptyString = s.
Proof. induction s as [|c s IH]; [reflexivity|]. by rewrite append_cons, IH. Qed.

Lemma append_assoc (s t u : string) : (s +:+ t) +:+ u = s +:+ (t +:+ u).
Proof. induction s as [|c s IH]; [reflexivity|]. by rewrite !append_cons, IH. Qed.

Lemma length_append (s t : string) :
  String.length (s +:+ t) = (String.length s + String.length t)%nat.
Proof.
  induction s as [|c s IH]; [reflexivity|].
  rewrite append_cons. simpl. by rewrite IH.
Qed.

Lemma len_append (s t : string) : len (s +:+ t) = (len s + len t)%Z.
Proof. unfold len. rewrite length_append. lia. Qed.

Lemma len_nonneg (s : string) : (0 ≤ len s)%Z.
Proof. unfold len. lia. Qed.

Lemma substring_prefix (s t : string) :
  String.substring 0 (String.length s) (s +:+ t) = s.
Proof.
  induction s as [|c s IH].
  - simpl. by destruct t.
  - rewrite append_cons. simpl. by rewrite IH.
Qed.

Lemma substring_skip (s t : string) (n m : nat) :
  String.substring (String.length s + n) m (s +:+ t) = String.substring n m t.
Proof.
  induction s as [|c s IH]; [reflexivity|].
  rewrite append_cons. simpl. exact IH.
Qed.

(** ** The record parser *)

Example scenario1 :
  process_example
    [ "1|t|Cancer"; "1|a|Cancer is bad.";
      "1" +:+ TAB +:+ "0" +:+ TAB +:+ "6" +:+ TAB +:+ "Cancer" +:+ TAB
          +:+ "T191,T192" +:+ TAB +:+ "C0006826" ]
  = Ok (MedMentionExample.mk "Cancer" "Cancer is bad." "Cancer Cancer is bad." "1"
          [MedMentionEntity.mk 0 6 "Cancer" "T191" "C0006826"]).
Proof. vm_compute. reflexivity. Qed.

Lemma process_example_Ok (lines : list string) (r : MedMentionExample.t) :
  process_example lines = Ok r →
  ∃ pubmed_id title abstract entities,
    r = MedMentionExample.mk title abstract ((title +:+ " ") +:+ abstract)
          pubmed_id entities
    ∧ mapM process_entity_line (drop 2 lines) = Ok entities.
Proof.
  unfold process_example. intros H.
  apply bind_Ok in H as (line0 & _ & H).
  apply bind_Ok in H as ([pubmed_id title] & _ & H).
  apply bind_Ok in H as (line1 & _ & H).
  apply bind_Ok in H as ([? abstract] & _ & H).
  apply bind_Ok in H as (entities & Hents & [= <-]).
  by exists pubmed_id, title, abstract, entities.
Qed.

(** C8. Whenever the record parser accepts a block, the [text] of the record
    is its [title], one space, and its [abstract]; so its length is the two
    lengths plus one. *)
Theorem C8_text_is_title_space_abstract (lines : list string) (r : MedMentionExample.t) :
  process_example lines = Ok r →
  MedMentionExample.text r
    = (MedMentionExample.title r +:+ " ") +:+ MedMentionExample.abstract r
  ∧ len (MedMentionExample.text r)
    = (len (MedMentionExample.title r) + 1 + len (MedMentionExample.abstract r))%Z.
Proof.
  intros (pubmed_id & title & abstract & entities & -> & _)%process_example_Ok.
  simpl. split; [reflexivity|].
  rewrite !len_append. reflexivity.
Qed.

Lemma C8_witness :
  let lines := [ "1|t|Cancer"; "1|a|Cancer is bad." ] in
  ∃ r, process_example lines = Ok r
       ∧ MedMentionExample.text r = "Cancer Cancer is bad.".
Proof.
  simpl. eexists. split; [vm_compute; reflexivity|].
  refine (eq_trans (proj1 (C8_text_is_title_space_abstract
     [ "1|t|Cancer"; "1|a|Cancer is bad." ] _ eq_refl)) _).
  reflexivity.
Defined.

Lemma split_head_no_sep (sep : ascii) (s : string) :
  ∀ (maxsplit : Z) (h : string) (t : list string),
    maxsplit ≠ 0%Z → split sep maxsplit s = h :: t → contains sep h = false.
Proof.
  induction s as [|c s IH]; intros maxsplit h t Hm; simpl.
  - by intros [= <- <-].
  - destruct (Ascii.eqb c sep) eqn:Hc; simpl.
    + destruct (Z.eqb_spec maxsplit 0) as [?|_]; [done|]. simpl.
      by intros [= <- <-].
    + destruct (split sep maxsplit s) as [|h' t'] eqn:Hs.
      * intros [= <- <-]. simpl. by rewrite Hc.
      * intros [= <- <-]. simpl. rewrite Hc. simpl. by eapply IH.
Qed.

Lemma process_entity_line_Ok (entity_line : string) (e : MedMentionEntity.t) :
  process_entity_line entity_line = Ok e → parsed_from entity_line e.
Proof.
  unfold process_entity_line, parsed_from.
  destruct (split "009" (-1) entity_line)
    as [|f0 [|f1 [|f2 [|f3 [|f4 [|f5 [|]]]]]]]; try discriminate.
  intros H.
  apply bind_Ok in H as (mt & Hmt & H).
  apply bind_Ok in H as (a & Ha & H).
  apply bind_Ok in H as (b & Hb & [= <-]).
  exists f0, f1, f2, f3, f4, f5. simpl. repeat split; try done.
  unfold index in Hmt. destruct (split "," (-1) f4) as [|h t] eqn:Hs; [done|].
  simpl in Hmt. injection Hmt as <-. by exists t.
Qed.

(** C3 (as the code has it). In every record the parser returns, no
    [mention_type] contains a comma, and the entities are, in order, what the
    annotation lines [lines[2:]] denote: [start] and [end] are the integers
    read from the second and third field, whatever their sign or order. *)
Theorem C3_mention_type_without_comma (lines : list string) (r : MedMentionExample.t) :
  process_example lines = Ok r →
  Forall (λ e, contains "," (MedMentionEntity.mention_type e) = false)
         (MedMentionExample.entities r)
  ∧ Forall2 parsed_from (drop 2 lines) (MedMentionExample.entities r).
Proof.
  intros (pubmed_id & title & abstract & entities & -> & Hents)%process_example_Ok.
  simpl. apply mapM_Ok in Hents.
  assert (Hall : Forall2 parsed_from (drop 2 lines) entities).
  { eapply Forall2_impl; [exact Hents|]. intros ??. apply process_entity_line_Ok. }
  split; [|exact Hall].
  clear Hents. induction Hall as [|line e ls es He _ IH]; constructor; [|exact IH].
  destruct He as (? & ? & ? & ? & mt & ? & _ & _ & _ & _ & [more Hmt] & _).
  by eapply (split_head_no_sep "," mt (-1)).
Qed.

Lemma C3_witness :
  Forall (λ e, contains "," (MedMentionEntity.mention_type e) = false)
         [MedMentionEntity.mk 6 0 "Cancer" "T191" "C0006826"].
Proof.
  exact (proj1 (C3_mention_type_without_comma reversed_offsets_block
    (MedMentionExample.mk "Cancer" "Cancer is bad." "Cancer Cancer is bad." "1"
       [MedMentionEntity.mk 6 0 "Cancer" "T191" "C0006826"]) eq_refl)).
Defined.

(** C3 as stated fails: this block is accepted, and its one entity has
    [start = 6 > end = 0]. *)
Lemma C3_counterexample :
  ∃ r e, process_example reversed_offsets_block = Ok r
         ∧ MedMentionExample.entities r = [e]
         ∧ MedMentionEntity.start e = 6%Z
         ∧ MedMentionEntity.end_ e = 0%Z
         ∧ ¬ (0 ≤ MedMentionEntity.start e ≤ MedMentionEntity.end_ e)%Z.
Proof.
  eexists _, _. split; [vm_compute; reflexivity|].
  split; [reflexivity|]. simpl. repeat split. lia.
Qed.

(** ** The BIO sentence converter *)

(** C1 (as the code has it). On John/B-PER, Smith/I-PER, died/O the
    converter returns the sentence "John Smith died" and the single span
    (0, 10, "PER"): the cursor before "died" is 11, so the span ends at 10,
    one past the 'h' of "Smith". *)
Theorem C1_scenario2_span_ends_at_10 :
  _handle_sentence [("John", "B-PER"); ("Smith", "I-PER"); ("died", "O")]
  = ("John Smith died", [(0%Z, 10%Z, "PER")]).
Proof. vm_compute. reflexivity. Qed.

(** C1 as stated fails: the entity list is not [(0, 9, "PER")]. *)
Lemma C1_counterexample :
  _handle_sentence [("John", "B-PER"); ("Smith", "I-PER"); ("died", "O")]
  ≠ ("John Smith died", [(0%Z, 9%Z, "PER")]).
Proof. vm_compute. discriminate. Qed.

Lemma cursor_app (p q : list (string * string)) :
  cursor (p ++ q) = (cursor p + cursor q)%Z.
Proof. induction p as [|[w t] p IH]; simpl; lia. Qed.

Lemma cursor_nonneg (p : list (string * string)) : (0 ≤ cursor p)%Z.
Proof. induction p as [|[w t] p IH]; simpl; [lia|]. pose proof (len_nonneg w). lia. Qed.

Lemma spaced_app (u v : list string) : spaced (u ++ v) = spaced u +:+ spaced v.
Proof.
  induction u as [|w u IH]; simpl; [reflexivity|].
  by rewrite IH, !append_assoc.
Qed.

Lemma len_spaced (ex : list (string * string)) : len (spaced (words ex)) = cursor ex.
Proof.
  induction ex as [|[w t] ex IH]; simpl; [reflexivity|].
  rewrite !len_append, IH. reflexivity.
Qed.

Lemma spaced_join (w : string) (ws : list string) :
  spaced (w :: ws) = join " " (w :: ws) +:+ " ".
Proof.
  revert w. induction ws as [|w' ws IH]; intros w.
  - simpl. by rewrite append_empty_r.
  - change (spaced (w :: w' :: ws)) with ((w +:+ " ") +:+ spaced (w' :: ws)).
    rewrite IH.
    change (join " " (w :: w' :: ws)) with (w +:+ " " +:+ join " " (w' :: ws)).
    by rewrite !append_assoc.
Qed.

Lemma handle_word_current_index (st : locals) (we : string * string) :
  current_index (handle_word st we) = (current_index st + (len (fst we) + 1))%Z.
Proof.
  destruct we as [w t]. unfold handle_word.
  by destruct (negb _), (in_entity st).
Qed.

Lemma handle_word_sent (st : locals) (we : string * string) :
  sent (handle_word st we) = (sent st +:+ fst we) +:+ " ".
Proof.
  destruct we as [w t]. unfold handle_word.
  by destruct (negb _), (in_entity st).
Qed.

Lemma fold_current_index (p : list (string * string)) (st : locals) :
  current_index (fold_left handle_word p st) = (current_index st + cursor p)%Z.
Proof.
  revert st. induction p as [|[w t] p IH]; intros st; cbn [fold_left cursor]; [lia|].
  rewrite IH, handle_word_current_index. simpl. lia.
Qed.

Lemma fold_sent (p : list (string * string)) (st : locals) :
  sent (fold_left handle_word p st) = sent st +:+ spaced (words p).
Proof.
  revert st. induction p as [|[w t] p IH]; intros st; cbn [fold_left words map spaced].
  - by rewrite append_empty_r.
  - rewrite IH, handle_word_sent. simpl. by rewrite !append_assoc.
Qed.

(** [s[:-1]] drops the last character. *)
Lemma slice_drop_last (s : string) (c : ascii) :
  slice (s +:+ String c EmptyString) None (Some (-1)%Z) = s.
Proof.
  unfold slice, adjust. rewrite len_append.
  change (len (String c EmptyString)) with 1%Z.
  pose proof (len_nonneg s) as Hs. simpl.
  replace (Z.to_nat (Z.max (-1 + (len s + 1)) 0 - 0)) with (String.length s)
    by (unfold len in *; lia).
  apply substring_prefix.
Qed.

Lemma sentence_is_join (ex : list (string * string)) :
  (_handle_sentence ex).1 = join " " (words ex).
Proof.
  unfold _handle_sentence. simpl. rewrite fold_sent. simpl.
  destruct ex as [|[w t] ex]; [reflexivity|].
  change (words ((w, t) :: ex)) with (w :: words ex).
  rewrite spaced_join. apply slice_drop_last.
Qed.

(** Splitting what was joined. *)
Lemma split_without_sep (sep : ascii) (w : string) (maxsplit : Z) :
  contains sep w = false → split sep maxsplit w = [w].
Proof.
  induction w as [|c w IH]; simpl; [done|].
  intros [Hc Hw]%orb_false_elim. rewrite Hc. simpl. by rewrite IH.
Qed.

Lemma split_append_sep (sep : ascii) (w r : string) (maxsplit : Z) :
  (maxsplit < 0)%Z → contains sep w = false →
  split sep maxsplit (w +:+ String sep r) = w :: split sep (maxsplit - 1) r.
Proof.
  intros Hm. induction w as [|c w IH]; simpl.
  - intros _. rewrite Ascii.eqb_refl.
    by destruct (Z.eqb_spec maxsplit 0); [lia|].
  - intros [Hc Hw]%orb_false_elim. rewrite Hc. simpl. by rewrite IH.
Qed.

Lemma split_join (ws : list string) (maxsplit : Z) :
  (maxsplit < 0)%Z → ws ≠ [] →
  Forall (λ w, contains " " w = false) ws →
  split " " maxsplit (join " " ws) = ws.
Proof.
  intros Hm Hne Hall. revert maxsplit Hm.
  induction Hall as [|w ws Hw Hall IH]; [done|]. intros maxsplit Hm.
  destruct ws as [|w' ws].
  - simpl. by apply split_without_sep.
  - change (join " " (w :: w' :: ws)) with (w +:+ String " " (join " " (w' :: ws))).
    rewrite split_append_sep by done. f_equal. apply IH; [done|lia].
Qed.

(** C6 (as the code has it). The output sentence is the words joined with
    single spaces, that is, the words each followed by a space with the one
    trailing space removed; and when no word contains a space, splitting the
    sentence on single spaces gives the words back. *)
Theorem C6_sentence_roundtrip (ex : list (string * string)) :
  ex ≠ [] →
  let sentence := (_handle_sentence ex).1 in
  sentence = join " " (words ex)
  ∧ sentence +:+ " " = spaced (words ex)
  ∧ (Forall (λ w, contains " " w = false) (words ex) →
     split " " (-1) sentence = words ex).
Proof.
  intros Hne sentence. subst sentence. rewrite sentence_is_join.
  split; [reflexivity|]. split.
  - destruct ex as [|[w t] ex]; [done|].
    change (words ((w, t) :: ex)) with (w :: words ex).
    by rewrite spaced_join.
  - intros Hall. apply split_join; [lia| |done].
    by destruct ex.
Qed.

Lemma C6_witness :
  split " " (-1)
    (_handle_sentence [("John", "B-PER"); ("Smith", "I-PER"); ("died", "O")]).1
  = ["John"; "Smith"; "died"].
Proof.
  refine (proj2 (proj2 (C6_sentence_roundtrip
    [("John", "B-PER"); ("Smith", "I-PER"); ("died", "O")] _)) _).
  - discriminate.
  - repeat constructor.
Defined.

(** C6 as stated fails for a word that contains a space, which the stream
    reader lets through since it only splits lines on tabs. *)
Lemma C6_counterexample :
  let ex := [("a b", "O")] in
  ex ≠ []
  ∧ read_ner_from_tsv ["a b" +:+ TAB +:+ "O" +:+ NL] = Ok [_handle_sentence ex]
  ∧ split " " (-1) (_handle_sentence ex).1 = ["a"; "b"]
  ∧ split " " (-1) (_handle_sentence ex).1 ≠ words ex.
Proof. vm_compute. repeat split; discriminate. Qed.

(** *** Spans and runs of tagged words *)

Lemma label_snoc (run : list (string * string)) (we : string * string) :
  run ≠ [] → label (run ++ [we]) = label run.
Proof. by destruct run. Qed.

Lemma closed_run_snoc (p : list (string * string)) (we : string * string)
    (span : Z * Z * string) :
  closed_run p span → closed_run (p ++ [we]) span.
Proof.
  intros (pre & run & w & post & -> & ? & ? & ? & ->).
  exists pre, run, w, (post ++ [we]).
  by rewrite <- !app_assoc.
Qed.

Lemma loop_invariant_initial : loop_invariant [] initial_locals.
Proof.
  repeat split; simpl; try done.
  - intros _. by left.
  - intros span Hin. by apply elem_of_nil in Hin.
Qed.

Lemma loop_invariant_step (p : list (string * string)) (st : locals)
    (we : string * string) :
  loop_invariant p st → loop_invariant (p ++ [we]) (handle_word st we).
Proof.
  intros (Hcur & Hout & Hin & Hents). destruct we as [w t].
  split; [rewrite handle_word_current_index, cursor_app; simpl; lia|].
  unfold handle_word.
  destruct (String.eqb_spec t "O") as [->|Ht], (in_entity st) eqn:Hst; simpl.
  - (* "O" closes the open span *)
    split; [intros _; right; by exists p, w|]. split; [done|].
    intros span [Hold| ->%list_elem_of_singleton]%elem_of_app.
    + by apply closed_run_snoc, Hents.
    + destruct (Hin eq_refl) as (pre & run & -> & ? & ? & ? & -> & ->).
      exists pre, run, w, []. rewrite <- app_assoc.
      repeat split; try done. unfold span_of. by rewrite Hcur.
  - (* "O" outside an entity *)
    split; [intros _; right; by exists p, w|]. split; [done|].
    intros span Hold. by apply closed_run_snoc, Hents.
  - (* another word of the open span *)
    split; [done|]. split.
    + intros _. destruct (Hin eq_refl) as (pre & run & -> & ? & ? & ? & ? & ?).
      exists pre, (run ++ [(w, t)]). rewrite <- app_assoc.
      repeat split; try done.
      * by destruct run.
      * apply Forall_app; split; [done|]. by constructor.
      * by rewrite label_snoc.
    + intros span Hold. by apply closed_run_snoc, Hents.
  - (* the first word of a span *)
    split; [done|]. split.
    + intros _. exists p, [(w, t)].
      repeat split; try done; [by constructor | by apply Hout].
    + intros span Hold. by apply closed_run_snoc, Hents.
Qed.

Lemma loop_invariant_fold (p : list (string * string)) :
  loop_invariant p (fold_left handle_word p initial_locals).
Proof.
  induction p as [|we p IH] using rev_ind.
  - apply loop_invariant_initial.
  - rewrite fold_left_app. simpl. by apply loop_invariant_step.
Qed.

(** Whether the loop is inside an entity only depends on the last tag. *)
Lemma handle_word_in_entity (st : locals) (we : string * string) :
  in_entity (handle_word st we) = negb (String.eqb we.2 "O").
Proof.
  destruct we as [w t]. unfold handle_word. simpl.
  by destruct (String.eqb t "O"), (in_entity st).
Qed.

Lemma ends_O_not_in_entity (pre : list (string * string)) :
  ends_O pre → in_entity (fold_left handle_word pre initial_locals) = false.
Proof.
  intros [->|(p' & w & ->)]; [reflexivity|].
  rewrite fold_left_app. cbn [fold_left]. by rewrite handle_word_in_entity.
Qed.

Lemma handle_word_inside (st : locals) (we : string * string) :
  nonO we → in_entity st = true →
  let st' := handle_word st we in
  in_entity st' = true ∧ start_index st' = start_index st
  ∧ entity_type st' = entity_type st ∧ entities st' = entities st.
Proof.
  destruct we as [w t]. unfold nonO, handle_word. simpl. intros Ht Hst.
  destruct (String.eqb_spec t "O"); [done|]. by rewrite Hst.
Qed.

Lemma handle_word_opens (st : locals) (we : string * string) :
  nonO we → in_entity st = false →
  let st' := handle_word st we in
  in_entity st' = true ∧ start_index st' = current_index st
  ∧ entity_type st' = label [we] ∧ entities st' = entities st.
Proof.
  destruct we as [w t]. unfold nonO, handle_word. simpl. intros Ht Hst.
  destruct (String.eqb_spec t "O"); [done|]. by rewrite Hst.
Qed.

Lemma run_inside (run : list (string * string)) (st : locals) :
  Forall nonO run → in_entity st = true →
  let st' := fold_left handle_word run st in
  in_entity st' = true ∧ start_index st' = start_index st
  ∧ entity_type st' = entity_type st ∧ entities st' = entities st.
Proof.
  intros Hrun. revert st. induction Hrun as [|we run Hwe _ IH]; intros st Hst.
  - done.
  - cbn [fold_left].
    destruct (handle_word_inside st we Hwe Hst) as (H1 & H2 & H3 & H4).
    destruct (IH _ H1) as (? & ? & ? & ?).
    cbn zeta. repeat split; congruence.
Qed.

Lemma run_opens (run : list (string * string)) (st : locals) :
  run ≠ [] → Forall nonO run → in_entity st = false →
  let st' := fold_left handle_word run st in
  in_entity st' = true ∧ start_index st' = current_index st
  ∧ entity_type st' = label run ∧ entities st' = entities st.
Proof.
  intros Hne Hrun Hst. destruct Hrun as [|we run Hwe Hrun]; [done|].
  cbn [fold_left].
  destruct (handle_word_opens st we Hwe Hst) as (H1 & H2 & H3 & H4).
  destruct (run_inside run _ Hrun H1) as (? & ? & ? & ?).
  cbn zeta. repeat split; try congruence.
  destruct we as [w t]. simpl in *. congruence.
Qed.

Lemma handle_word_keeps (st : locals) (we : string * string) (span : Z * Z * string) :
  span ∈ entities st → span ∈ entities (handle_word st we).
Proof.
  destruct we as [w t]. unfold handle_word.
  destruct (negb _), (in_entity st); simpl; try done.
  intros ?. apply elem_of_app. by left.
Qed.

Lemma fold_keeps (l : list (string * string)) (st : locals) (span : Z * Z * string) :
  span ∈ entities st → span ∈ entities (fold_left handle_word l st).
Proof.
  revert st. induction l as [|we l IH]; intros st; cbn [fold_left]; [done|].
  intros ?. by apply IH, handle_word_keeps.
Qed.

Lemma handle_word_closes (st : locals) (w : string) :
  in_entity st = true →
  (start_index st, (current_index st - 1)%Z, entity_type st)
    ∈ entities (handle_word st (w, "O")).
Proof.
  intros Hst. unfold handle_word. simpl. rewrite Hst.
  apply elem_of_app. right. by apply list_elem_of_singleton.
Qed.

(** Every maximal run is emitted as its span. *)
Lemma run_is_emitted (pre run post : list (string * string)) :
  maximal_run pre run post →
  span_of pre run ∈ (_handle_sentence (pre ++ run ++ post)).2.
Proof.
  intros (Hne & Hrun & Hpre & Hpost).
  unfold _handle_sentence. cbn [snd]. rewrite !fold_left_app.
  pose proof (ends_O_not_in_entity pre Hpre) as Hout.
  pose proof (fold_current_index pre initial_locals) as Hcur. simpl in Hcur.
  set (st1 := fold_left handle_word pre initial_locals) in *.
  destruct (run_opens run st1 Hne Hrun Hout) as (Hin & Hstart & Htype & _).
  pose proof (fold_current_index run st1) as Hcur2.
  set (st2 := fold_left handle_word run st1) in *.
  assert (Hspan : span_of pre run
                  = (start_index st2, (current_index st2 - 1)%Z, entity_type st2)).
  { unfold span_of. rewrite cursor_app, Hstart, Htype, Hcur2, Hcur. reflexivity. }
  rewrite Hspan. destruct Hpost as [->|(w & post' & ->)].
  - simpl. rewrite Hin. apply elem_of_app. right. by apply list_elem_of_singleton.
  - cbn [fold_left].
    assert (Hk : (start_index st2, (current_index st2 - 1)%Z, entity_type st2)
                 ∈ entities (fold_left handle_word post' (handle_word st2 (w, "O")))).
    { by apply fold_keeps, handle_word_closes. }
    destruct (in_entity (fold_left handle_word post' _));
      [apply elem_of_app; by left | done].
Qed.

(** Every emitted span is the span of a maximal run. *)
Lemma emitted_is_run (ex : list (string * string)) (span : Z * Z * string) :
  span ∈ (_handle_sentence ex).2 →
  ∃ pre run post,
    ex = pre ++ run ++ post ∧ maximal_run pre run post ∧ span = span_of pre run.
Proof.
  unfold _handle_sentence. cbn [snd].
  destruct (loop_invariant_fold ex) as (Hcur & _ & Hin & Hents).
  set (st := fold_left handle_word ex initial_locals) in *.
  assert (Hclosed : span ∈ entities st →
    ∃ pre run post,
      ex = pre ++ run ++ post ∧ maximal_run pre run post ∧ span = span_of pre run).
  { intros (pre & run & w & post & -> & ? & ? & ? & ->)%Hents.
    exists pre, run, ((w, "O") :: post). repeat split; try done.
    right. by exists w, post. }
  destruct (in_entity st) eqn:Hst; [|done].
  intros [Hold| ->%list_elem_of_singleton]%elem_of_app; [by apply Hclosed|].
  destruct (Hin eq_refl) as (pre & run & -> & ? & ? & ? & Hstart & Htype).
  exists pre, run, []. rewrite app_nil_r. repeat split; try done; [by left|].
  unfold span_of. by rewrite Hcur, Hstart, Htype.
Qed.

Lemma substring_app_l (x y : string) :
  ∀ a b : nat, (a + b ≤ String.length x)%nat →
    String.substring a b (x +:+ y) = String.substring a b x.
Proof.
  induction x as [|c x IH]; intros a b Hab; simpl in Hab.
  - assert (a = 0%nat) as -> by lia. assert (b = 0%nat) as -> by lia.
    by destruct y.
  - rewrite append_cons. destruct a as [|a]; simpl.
    + destruct b as [|b]; [done|]. f_equal. apply IH. lia.
    + apply IH. lia.
Qed.

Lemma cursor_run_pos (run : list (string * string)) : run ≠ [] → (1 ≤ cursor run)%Z.
Proof.
  destruct run as [|[w t] run]; [done|]. intros _. simpl.
  pose proof (len_nonneg w). pose proof (cursor_nonneg run). lia.
Qed.

Lemma len_join_run (run : list (string * string)) :
  run ≠ [] → len (join " " (words run)) = (cursor run - 1)%Z.
Proof.
  destruct run as [|[w t] run]; [done|]. intros _.
  rewrite <- len_spaced. change (words ((w, t) :: run)) with (w :: words run).
  rewrite spaced_join, len_append. change (len " ") with 1%Z. lia.
Qed.

(** The half-open slice of the sentence at a span is the run's words joined
    with single spaces. *)
Lemma slice_of_span (pre run post : list (string * string)) :
  run ≠ [] →
  slice (_handle_sentence (pre ++ run ++ post)).1
        (Some (cursor pre)) (Some (cursor (pre ++ run) - 1)%Z)
  = join " " (words run).
Proof.
  intros Hne. rewrite sentence_is_join.
  set (ex := pre ++ run ++ post).
  assert (Hex : ex ≠ []).
  { subst ex. intros [_ [H _]%app_eq_nil]%app_eq_nil. done. }
  pose proof (len_join_run ex Hex) as Hlen.
  pose proof (len_join_run run Hne) as Hlenr.
  pose proof (cursor_nonneg pre) as Hp. pose proof (cursor_nonneg post) as Hq.
  pose proof (cursor_run_pos run Hne) as Hr.
  assert (Hcur : cursor ex = (cursor pre + cursor run + cursor post)%Z).
  { subst ex. rewrite !cursor_app. lia. }
  unfold slice, adjust. rewrite Hlen, cursor_app.
  destruct (Z.ltb_spec (cursor pre) 0) as [?|_]; [lia|].
  destruct (Z.ltb_spec (cursor pre + cursor run - 1) 0) as [?|_]; [lia|].
  rewrite !Z.min_l by lia.
  (* read the slice in the sentence followed by its trailing space *)
  rewrite <- (substring_app_l _ " ") by (unfold len in *; lia).
  assert (Hsp : join " " (words ex) +:+ " "
                = spaced (words pre)
                  +:+ (join " " (words run) +:+ (" " +:+ spaced (words post)))).
  { destruct ex as [|[w t] ex'] eqn:Eex; [done|].
    change (words ((w, t) :: ex')) with (w :: words ex').
    rewrite <- spaced_join.
    change (w :: words ex') with (words ((w, t) :: ex')). rewrite <- Eex.
    subst ex. unfold words. rewrite !map_app, !spaced_app. fold (words run).
    destruct run as [|[w' t'] run'] eqn:Erun; [done|].
    change (words ((w', t') :: run')) with (w' :: words run').
    rewrite spaced_join. by rewrite !append_assoc. }
  rewrite Hsp.
  replace (Z.to_nat (cursor pre))
    with (String.length (spaced (words pre)) + 0)%nat
    by (pose proof (len_spaced pre); unfold len in *; lia).
  rewrite substring_skip.
  replace (Z.to_nat (cursor pre + cursor run - 1 - cursor pre))
    with (String.length (join " " (words run)))
    by (unfold len in *; lia).
  apply substring_prefix.
Qed.

(** C4. The loop's [current_index] before a word is the length of the words
    before it, each with its space ([cursor]).  The spans the converter
    returns are exactly the spans of the maximal runs of words whose tag is
    not "O": such a span starts at the cursor before the run and ends at the
    cursor after the run minus one, which is the cursor before the closing
    "O" word minus one, or the end of the sentence when the run is still
    open there.  The half-open slice of the sentence at a span is the run's
    words joined with single spaces. *)
Theorem C4_spans_are_the_runs (ex : list (string * string)) :
  ex ≠ [] →
  (∀ p, current_index (fold_left handle_word p initial_locals) = cursor p)
  ∧ (∀ span, span ∈ (_handle_sentence ex).2 ↔
       ∃ pre run post,
         ex = pre ++ run ++ post ∧ maximal_run pre run post
         ∧ span = span_of pre run)
  ∧ (∀ pre run post,
       ex = pre ++ run ++ post → maximal_run pre run post →
       slice (_handle_sentence ex).1
             (Some (span_of pre run).1.1) (Some (span_of pre run).1.2)
       = join " " (words run)
       ∧ (post = [] → (span_of pre run).1.2 = len (_handle_sentence ex).1)).
Proof.
  intros _. split; [|split].
  - intros p. rewrite fold_current_index. simpl. lia.
  - intros span. split; [apply emitted_is_run|].
    intros (pre & run & post & -> & Hmax & ->). by apply run_is_emitted.
  - intros pre run post -> (Hne & _). split.
    + by apply slice_of_span.
    + intros ->. rewrite app_nil_r. unfold span_of. cbn [fst snd].
      rewrite sentence_is_join, len_join_run; [done|].
      intros [_ ?]%app_eq_nil. done.
Qed.

Lemma C4_witness :
  slice (_handle_sentence john_smith_died).1 (Some 0%Z) (Some 10%Z) = "John Smith".
Proof.
  refine (proj1 (proj2 (proj2 (C4_spans_are_the_runs john_smith_died _))
            [] [("John", "B-PER"); ("Smith", "I-PER")] [("died", "O")] eq_refl _)).
  - discriminate.
  - split; [discriminate|]. split; [|split].
    + repeat constructor; discriminate.
    + by left.
    + right. by exists "died", [].
Defined.

(** ** The corpus splitter *)

Example sample_iterator :
  med_mentions_example_iterator sample_fs "data/corpus_pubtator.txt"
  = Yield doc1 (Yield doc2 (Yield doc3 (Yield doc4 Done))).
Proof. vm_compute. reflexivity. Qed.

Example sample_split :
  read_full_med_mentions sample_fs "data" None false false
  = Ok ([Record_ doc1; Record_ doc2], [], [Record_ doc3]).
Proof. vm_compute. reflexivity. Qed.

(** C2 (as the code has it). When one of the four files the splitter opens
    (the corpus and the train, dev and test ID lists) is missing from the
    resolved directory, the call raises [FileNotFoundError] for a missing
    path. *)
Theorem C2_missing_opened_file (fs : filesystem) (directory name : string)
    (label_mapping : option (gmap string string)) (span_only spacy_format : bool) :
  name ∈ opened_names →
  fs !! path_join directory name = None →
  ∃ missing,
    fs !! missing = None
    ∧ read_full_med_mentions fs directory label_mapping span_only spacy_format
      = Raise (FileNotFoundError missing).
Proof.
  intros Hname Hmiss. unfold read_full_med_mentions. simpl.
  unfold read_ids, med_mentions_example_iterator.
  destruct (fs !! path_join directory "corpus_pubtator_pmids_trng.txt") eqn:E4;
    [|by eexists]. simpl.
  destruct (fs !! path_join directory "corpus_pubtator_pmids_dev.txt") eqn:E2;
    [|by eexists]. simpl.
  destruct (fs !! path_join directory "corpus_pubtator_pmids_test.txt") eqn:E3;
    [|by eexists]. simpl.
  destruct (fs !! path_join directory "corpus_pubtator.txt") eqn:E0;
    [|by eexists].
  exfalso. unfold opened_names in Hname.
  repeat (apply elem_of_cons in Hname as [->|Hname]; [congruence|]).
  by apply elem_of_nil in Hname.
Qed.

Lemma C2_witness :
  ∃ missing,
    (∅ : filesystem) !! missing = None
    ∧ read_full_med_mentions ∅ "data" None false true
      = Raise (FileNotFoundError missing).
Proof.
  apply (C2_missing_opened_file ∅ "data" "corpus_pubtator_pmids_dev.txt").
  - unfold opened_names. apply elem_of_cons. right. apply elem_of_cons. by left.
  - reflexivity.
Defined.

(** C2 as stated fails: [corpus_pubtator_pmids_all.txt] is never opened, so
    a directory that only lacks that file is read without an error. *)
Lemma C2_counterexample :
  "corpus_pubtator_pmids_all.txt" ∈ expected_names
  ∧ sample_fs !! path_join "data" "corpus_pubtator_pmids_all.txt" = None
  ∧ read_full_med_mentions sample_fs "data" None false false
    = Ok ([Record_ doc1; Record_ doc2], [], [Record_ doc3]).
Proof.
  split; [|split].
  - unfold expected_names. apply elem_of_cons. right. apply elem_of_cons. by left.
  - vm_compute. reflexivity.
  - vm_compute. reflexivity.
Qed.

Section SplitLoop.
Context (label_mapping : option (gmap string string)).
Context (span_only spacy_format : bool).
Context (train_ids dev_ids test_ids : gset string).

Local Abbreviation rendered := (rendered label_mapping span_only spacy_format).
Local Abbreviation in_train := (in_train train_ids).
Local Abbreviation in_dev := (in_dev train_ids dev_ids).
Local Abbreviation in_test := (in_test train_ids dev_ids test_ids).

Lemma split_loop_Ok (g : generator MedMentionExample.t) :
  ∀ tr dv te tr' dv' te',
    split_loop label_mapping span_only spacy_format train_ids dev_ids test_ids
      g tr dv te = Ok (tr', dv', te') →
    raised g = None
    ∧ ∃ items,
        items.*1 = yielded g
        ∧ Forall rendered items
        ∧ tr' = tr ++ (filter in_train items).*2
        ∧ dv' = dv ++ (filter in_dev items).*2
        ∧ te' = te ++ (filter in_test items).*2.
Proof.
  induction g as [|e|d rest IH]; intros tr dv te tr' dv' te'; cbn [split_loop].
  - intros [= <- <- <-]. split; [done|]. exists [].
    by rewrite !filter_nil, !app_nil_r.
  - discriminate.
  - intros (ents & Hents & H)%bind_Ok.
    set (o := appended spacy_format d ents) in *.
    assert (Hr : rendered (d, o)) by (by exists ents).
    repeat case_decide; apply IH in H as (Hnone & items & Hfst & Hall & -> & -> & ->);
      (split; [done|]); exists ((d, o) :: items);
      (split; [by rewrite fmap_cons, Hfst|]); (split; [by constructor|]).
    + rewrite (filter_cons_True in_train) by done.
      rewrite (filter_cons_False in_dev) by (unfold in_dev; simpl; tauto).
      rewrite (filter_cons_False in_test) by (unfold in_test; simpl; tauto).
      by rewrite fmap_cons, <- !app_assoc.
    + rewrite (filter_cons_False in_train) by done.
      rewrite (filter_cons_True in_dev) by done.
      rewrite (filter_cons_False in_test) by (unfold in_test; simpl; tauto).
      by rewrite fmap_cons, <- !app_assoc.
    + rewrite (filter_cons_False in_train) by done.
      rewrite (filter_cons_False in_dev) by (unfold in_dev; simpl; tauto).
      rewrite (filter_cons_True in_test) by done.
      by rewrite fmap_cons, <- !app_assoc.
    + rewrite (filter_cons_False in_train) by done.
      rewrite (filter_cons_False in_dev) by (unfold in_dev; simpl; tauto).
      rewrite (filter_cons_False in_test) by (unfold in_test; simpl; tauto).
      done.
Qed.
End SplitLoop.

(** The call does return when the files are there, the corpus parses and
    every label is found. *)
Lemma split_loop_returns (label_mapping : option (gmap string string))
    (span_only spacy_format : bool) (train_ids dev_ids test_ids : gset string)
    (g : generator MedMentionExample.t) :
  raised g = None →
  Forall (λ d, ∃ ents, spacy_format_entities label_mapping span_only d = Ok ents)
         (yielded g) →
  ∀ tr dv te,
    ∃ res, split_loop label_mapping span_only spacy_format
             train_ids dev_ids test_ids g tr dv te = Ok res.
Proof.
  induction g as [|e|d rest IH]; cbn [raised yielded split_loop].
  - intros _ _ tr dv te. by eexists.
  - discriminate.
  - intros Hnone Hall tr dv te.
    apply Forall_cons in Hall as [[ents ->] Hall]. cbn [bind].
    repeat case_decide; by apply IH.
Qed.

Lemma read_full_med_mentions_returns (fs : filesystem) (directory : string)
    (label_mapping : option (gmap string string)) (span_only spacy_format : bool) :
  (∀ name, name ∈ opened_names → is_Some (fs !! path_join directory name)) →
  (let examples :=
     med_mentions_example_iterator fs (path_join directory "corpus_pubtator.txt") in
   raised examples = None
   ∧ Forall (λ d, ∃ ents, spacy_format_entities label_mapping span_only d = Ok ents)
            (yielded examples)) →
  ∃ res,
    read_full_med_mentions fs directory label_mapping span_only spacy_format = Ok res.
Proof.
  intros Hfiles [Hnone Hall]. unfold read_full_med_mentions, read_ids. simpl.
  assert (H4 : "corpus_pubtator_pmids_trng.txt" ∈ opened_names)
    by (unfold opened_names; do 3 (apply elem_of_cons; right); apply elem_of_cons; by left).
  assert (H2 : "corpus_pubtator_pmids_dev.txt" ∈ opened_names)
    by (unfold opened_names; apply elem_of_cons; right; apply elem_of_cons; by left).
  assert (H3 : "corpus_pubtator_pmids_test.txt" ∈ opened_names)
    by (unfold opened_names; do 2 (apply elem_of_cons; right); apply elem_of_cons; by left).
  destruct (Hfiles _ H4) as [f4 ->], (Hfiles _ H2) as [f2 ->], (Hfiles _ H3) as [f3 ->].
  simpl. by apply split_loop_returns.
Qed.

Lemma read_ids_Ok (fs : filesystem) (path : string) (ids : gset string) :
  read_ids fs path = Ok ids →
  ∃ file, fs !! path = Some file ∧ ids = list_to_set (map strip file).
Proof.
  unfold read_ids. destruct (fs !! path) as [file|]; [|done].
  intros [= <-]. by exists file.
Qed.

(** C5. When the splitter returns, every document the iterator yielded was
    parsed and labelled, and the three lists are the elements appended for
    the documents whose [pubmed_id] is in the train set, for those not in
    the train set but in the dev set, and for those in neither but in the
    test set, each in corpus order; a document whose [pubmed_id] is in none
    of the sets is in none of the lists. *)
Theorem C5_routing_by_priority (fs : filesystem) (directory : string)
    (label_mapping : option (gmap string string)) (span_only spacy_format : bool)
    (train dev test : list output) :
  read_full_med_mentions fs directory label_mapping span_only spacy_format
    = Ok (train, dev, test) →
  ∃ (train_ids dev_ids test_ids : gset string)
    (items : list (MedMentionExample.t * output)),
    read_ids fs (path_join directory "corpus_pubtator_pmids_trng.txt") = Ok train_ids
    ∧ read_ids fs (path_join directory "corpus_pubtator_pmids_dev.txt") = Ok dev_ids
    ∧ read_ids fs (path_join directory "corpus_pubtator_pmids_test.txt") = Ok test_ids
    ∧ (let examples :=
         med_mentions_example_iterator fs
           (path_join directory "corpus_pubtator.txt") in
       raised examples = None ∧ yielded examples = items.*1)
    ∧ Forall (rendered label_mapping span_only spacy_format) items
    ∧ train = (filter (in_train train_ids) items).*2
    ∧ dev = (filter (in_dev train_ids dev_ids) items).*2
    ∧ test = (filter (in_test train_ids dev_ids test_ids) items).*2
    ∧ (∀ item,
         let id := MedMentionExample.pubmed_id item.1 in
         (in_train train_ids item ∨ in_dev train_ids dev_ids item
          ∨ in_test train_ids dev_ids test_ids item
          ↔ id ∈ train_ids ∨ id ∈ dev_ids ∨ id ∈ test_ids)
         ∧ ¬ (in_train train_ids item ∧ in_dev train_ids dev_ids item)
         ∧ ¬ (in_train train_ids item ∧ in_test train_ids dev_ids test_ids item)
         ∧ ¬ (in_dev train_ids dev_ids item
              ∧ in_test train_ids dev_ids test_ids item)).
Proof.
  unfold read_full_med_mentions. simpl. intros H.
  apply bind_Ok in H as (train_ids & Htr & H).
  apply bind_Ok in H as (dev_ids & Hdv & H).
  apply bind_Ok in H as (test_ids & Hte & H).
  apply split_loop_Ok in H as (Hnone & items & Hfst & Hall & -> & -> & ->).
  exists train_ids, dev_ids, test_ids, items.
  split; [done|]. split; [done|]. split; [done|]. split; [done|].
  split; [done|]. split; [done|]. split; [done|]. split; [done|].
  intros item. unfold in_train, in_dev, in_test.
  destruct (decide (MedMentionExample.pubmed_id item.1 ∈ train_ids)),
    (decide (MedMentionExample.pubmed_id item.1 ∈ dev_ids)); tauto.
Qed.

Lemma C5_witness :
  ∃ (train_ids dev_ids test_ids : gset string)
    (items : list (MedMentionExample.t * output)),
    read_ids sample_fs (path_join "data" "corpus_pubtator_pmids_trng.txt") = Ok train_ids
    ∧ read_ids sample_fs (path_join "data" "corpus_pubtator_pmids_dev.txt") = Ok dev_ids
    ∧ read_ids sample_fs (path_join "data" "corpus_pubtator_pmids_test.txt") = Ok test_ids
    ∧ (let examples :=
         med_mentions_example_iterator sample_fs
           (path_join "data" "corpus_pubtator.txt") in
       raised examples = None ∧ yielded examples = items.*1)
    ∧ Forall (rendered None false false) items
    ∧ [Record_ doc1; Record_ doc2] = (filter (in_train train_ids) items).*2
    ∧ [] = (filter (in_dev train_ids dev_ids) items).*2
    ∧ [Record_ doc3] = (filter (in_test train_ids dev_ids test_ids) items).*2
    ∧ (∀ item,
         let id := MedMentionExample.pubmed_id item.1 in
         (in_train train_ids item ∨ in_dev train_ids dev_ids item
          ∨ in_test train_ids dev_ids test_ids item
          ↔ id ∈ train_ids ∨ id ∈ dev_ids ∨ id ∈ test_ids)
         ∧ ¬ (in_train train_ids item ∧ in_dev train_ids dev_ids item)
         ∧ ¬ (in_train train_ids item ∧ in_test train_ids dev_ids test_ids item)
         ∧ ¬ (in_dev train_ids dev_ids item
              ∧ in_test train_ids dev_ids test_ids item)).
Proof.
  apply (C5_routing_by_priority sample_fs "data" None false false).
  vm_compute. reflexivity.
Defined.

(** *** Labels missing from the mapping *)

Lemma mapM_Raise {A B : Type} (f : A → result B) (l : list A) (x : A) :
  x ∈ l → (∃ e, f x = Raise e) →
  ∃ y e, y ∈ l ∧ f y = Raise e ∧ mapM f l = Raise e.
Proof.
  intros Hx Hfx. induction l as [|z l IH]; [by apply elem_of_nil in Hx|].
  simpl. destruct (f z) as [b|e] eqn:Hz.
  - apply elem_of_cons in Hx as [->|Hx].
    { destruct Hfx as [e He]. congruence. }
    destruct (IH Hx) as (y & e & Hy & Hfy & ->).
    exists y, e. repeat split; try done. apply elem_of_cons. by right.
  - exists z, e. repeat split; try done. apply elem_of_cons. by left.
Qed.

Section MissingLabel.
Context (mapping : gmap string string).
Context (spacy_format : bool).
Context (train_ids dev_ids test_ids : gset string).

Lemma label_function_missing (label : string) :
  mapping !! label = None →
  label_function (Some mapping) false label = Raise (KeyError label).
Proof. unfold label_function. by intros ->. Qed.

Lemma label_function_Raise (label : string) (e : exn) :
  label_function (Some mapping) false label = Raise e →
  e = KeyError label ∧ mapping !! label = None.
Proof.
  unfold label_function. destruct (mapping !! label); [done|].
  by intros [= <-].
Qed.

(** A document with an entity whose type is not in the mapping makes the
    list comprehension raise [KeyError] for a key that is not in it. *)
Lemma spacy_format_entities_missing (d : MedMentionExample.t)
    (x : MedMentionEntity.t) :
  x ∈ MedMentionExample.entities d →
  mapping !! MedMentionEntity.mention_type x = None →
  ∃ key, mapping !! key = None
         ∧ spacy_format_entities (Some mapping) false d = Raise (KeyError key).
Proof.
  intros Hx Hmiss. unfold spacy_format_entities.
  edestruct (mapM_Raise
    (λ x, let* l := label_function (Some mapping) false
                      (MedMentionEntity.mention_type x) in
          Ok (MedMentionEntity.start x, MedMentionEntity.end_ x, l))
    (MedMentionExample.entities d) x Hx) as (y & e & _ & Hy & ->).
  { exists (KeyError (MedMentionEntity.mention_type x)).
    by rewrite label_function_missing. }
  destruct (label_function (Some mapping) false (MedMentionEntity.mention_type y))
    as [l|e'] eqn:Hl; simpl in Hy; [done|].
  injection Hy as <-. apply label_function_Raise in Hl as [-> ?].
  by eexists.
Qed.

Lemma spacy_format_entities_Raise (d : MedMentionExample.t) (e : exn) :
  spacy_format_entities (Some mapping) false d = Raise e →
  ∃ key, mapping !! key = None ∧ e = KeyError key.
Proof.
  unfold spacy_format_entities.
  induction (MedMentionExample.entities d) as [|x l IH]; cbn [mapM]; [done|].
  destruct (label_function (Some mapping) false (MedMentionEntity.mention_type x))
    as [lab|e'] eqn:Hl; cbn [bind].
  - destruct (mapM _ l) as [ys|e'']; cbn [bind]; [done|].
    intros [= <-]. by apply IH.
  - intros [= <-]. apply label_function_Raise in Hl as [-> ?]. by eexists.
Qed.

(** The loop raises [KeyError] as soon as a yielded document has such an
    entity, whatever the ID sets, the output format and the lists so far. *)
Lemma split_loop_missing (g : generator MedMentionExample.t)
    (d : MedMentionExample.t) (x : MedMentionEntity.t) :
  d ∈ yielded g →
  x ∈ MedMentionExample.entities d →
  mapping !! MedMentionEntity.mention_type x = None →
  ∀ tr dv te,
    ∃ key, mapping !! key = None
           ∧ split_loop (Some mapping) false spacy_format
               train_ids dev_ids test_ids g tr dv te
             = Raise (KeyError key).
Proof.
  intros Hd Hx Hmiss.
  induction g as [|e|d' rest IH]; intros tr dv te; cbn [yielded] in Hd.
  - by apply elem_of_nil in Hd.
  - by apply elem_of_nil in Hd.
  - cbn [split_loop].
    destruct (spacy_format_entities (Some mapping) false d') as [ents|e] eqn:He.
    + apply elem_of_cons in Hd as [->|Hd].
      { destruct (spacy_format_entities_missing d' x Hx Hmiss) as (? & _ & ?).
        congruence. }
      simpl. repeat case_decide; by apply IH.
    + simpl. apply spacy_format_entities_Raise in He as (key & ? & ->).
      by exists key.
Qed.
End MissingLabel.

(** C7. With a [label_mapping], [span_only] unset and the ID files in place,
    if a document the iterator yields has an entity whose [mention_type] is
    not a key of the mapping, the call raises [KeyError] for a key that is
    not in the mapping; it returns no lists, so no example for that
    document. *)
Theorem C7_missing_label_raises_KeyError (fs : filesystem) (directory : string)
    (mapping : gmap string string) (spacy_format : bool)
    (train_ids dev_ids test_ids : gset string)
    (d : MedMentionExample.t) (x : MedMentionEntity.t) :
  read_ids fs (path_join directory "corpus_pubtator_pmids_trng.txt") = Ok train_ids →
  read_ids fs (path_join directory "corpus_pubtator_pmids_dev.txt") = Ok dev_ids →
  read_ids fs (path_join directory "corpus_pubtator_pmids_test.txt") = Ok test_ids →
  d ∈ yielded (med_mentions_example_iterator fs
                 (path_join directory "corpus_pubtator.txt")) →
  x ∈ MedMentionExample.entities d →
  mapping !! MedMentionEntity.mention_type x = None →
  ∃ key,
    mapping !! key = None
    ∧ read_full_med_mentions fs directory (Some mapping) false spacy_format
      = Raise (KeyError key).
Proof.
  intros Htr Hdv Hte Hd Hx Hmiss.
  unfold read_full_med_mentions. simpl. rewrite Htr, Hdv, Hte. simpl.
  by eapply split_loop_missing.
Qed.

Lemma C7_witness :
  ∃ key,
    ({[ "T191" := "DISEASE" ]} : gmap string string) !! key = None
    ∧ read_full_med_mentions sample_fs "data" (Some {[ "T191" := "DISEASE" ]})
        false true
      = Raise (KeyError key).
Proof.
  apply (C7_missing_label_raises_KeyError sample_fs "data" {[ "T191" := "DISEASE" ]}
           true {[ "1"; "2" ]} {[ "2" ]} {[ "3" ]} doc2
           (MedMentionEntity.mk 0 3 "Flu" "T047" "C0021400")).
  - vm_compute. reflexivity.
  - vm_compute. reflexivity.
  - vm_compute. reflexivity.
  - change (path_join "data" "corpus_pubtator.txt") with "data/corpus_pubtator.txt".
    rewrite sample_iterator. cbn [yielded].
    apply elem_of_cons. right. apply elem_of_cons. by left.
  - apply elem_of_cons. by left.
  - vm_compute. reflexivity.
Defined.

(** Whether the loop raises, and what, depends neither on the ID sets nor on
    the output format nor on the lists built so far: the labels of a document
    are computed before its [pubmed_id] is looked up. *)
Lemma split_loop_exception (label_mapping : option (gmap string string))
    (span_only : bool) (g : generator MedMentionExample.t) :
  ∀ sf sf' (tr dv te tr' dv' te' : gset string) a b c a' b' c',
    exception (split_loop label_mapping span_only sf tr dv te g a b c)
    = exception (split_loop label_mapping span_only sf' tr' dv' te' g a' b' c').
Proof.
  induction g as [|e|d rest IH]; intros; cbn [split_loop]; [done..|].
  destruct (spacy_format_entities label_mapping span_only d) as [ents|e];
    cbn [bind]; [|done].
  repeat case_decide; apply IH.
Qed.

(** C10. The labels of every yielded document are computed before its
    [pubmed_id] is tested and whatever the output format: the exception the
    loop ends with is the same for all ID sets and both formats.  So with a
    [label_mapping] and [span_only] unset, a [mention_type] that is not in the
    mapping makes the call raise [KeyError] also when the document's
    [pubmed_id] is in none of the three ID sets and the records themselves
    were asked for. *)
Theorem C10_labels_before_routing (fs : filesystem) (directory : string)
    (mapping : gmap string string)
    (train_ids dev_ids test_ids : gset string)
    (d : MedMentionExample.t) (x : MedMentionEntity.t) :
  read_ids fs (path_join directory "corpus_pubtator_pmids_trng.txt") = Ok train_ids →
  read_ids fs (path_join directory "corpus_pubtator_pmids_dev.txt") = Ok dev_ids →
  read_ids fs (path_join directory "corpus_pubtator_pmids_test.txt") = Ok test_ids →
  d ∈ yielded (med_mentions_example_iterator fs
                 (path_join directory "corpus_pubtator.txt")) →
  x ∈ MedMentionExample.entities d →
  mapping !! MedMentionEntity.mention_type x = None →
  MedMentionExample.pubmed_id d ∉ train_ids →
  MedMentionExample.pubmed_id d ∉ dev_ids →
  MedMentionExample.pubmed_id d ∉ test_ids →
  (∃ key,
     mapping !! key = None
     ∧ read_full_med_mentions fs directory (Some mapping) false false
       = Raise (KeyError key))
  ∧ (∀ g sf sf' (tr dv te tr' dv' te' : gset string),
       exception (split_loop (Some mapping) false sf tr dv te g [] [] [])
       = exception (split_loop (Some mapping) false sf' tr' dv' te' g [] [] [])).
Proof.
  intros Htr Hdv Hte Hd Hx Hmiss _ _ _. split.
  - unfold read_full_med_mentions. simpl. rewrite Htr, Hdv, Hte. simpl.
    by eapply split_loop_missing.
  - intros. apply split_loop_exception.
Qed.

Lemma C10_witness :
  ∃ key,
    ({[ "T191" := "DISEASE"; "T047" := "DISEASE" ]} : gmap string string) !! key
      = None
    ∧ read_full_med_mentions sample_fs "data"
        (Some {[ "T191" := "DISEASE"; "T047" := "DISEASE" ]}) false false
      = Raise (KeyError key).
Proof.
  refine (proj1 (C10_labels_before_routing sample_fs "data"
           {[ "T191" := "DISEASE"; "T047" := "DISEASE" ]}
           {[ "1"; "2" ]} {[ "2" ]} {[ "3" ]} doc4
           (MedMentionEntity.mk 7 11 "rash" "T033" "C0015230")
           _ _ _ _ _ _ _ _ _)).
  - vm_compute. reflexivity.
  - vm_compute. reflexivity.
  - vm_compute. reflexivity.
  - change (path_join "data" "corpus_pubtator.txt") with "data/corpus_pubtator.txt".
    rewrite sample_iterator. cbn [yielded].
    do 3 (apply elem_of_cons; right). apply elem_of_cons. by left.
  - apply elem_of_cons. by left.
  - vm_compute. reflexivity.
  - apply (proj1 (bool_decide_eq_false _)). vm_compute. reflexivity.
  - apply (proj1 (bool_decide_eq_false _)). vm_compute. reflexivity.
  - apply (proj1 (bool_decide_eq_false _)). vm_compute. reflexivity.
Defined.

(** ** The stream iterator and the stream reader at empty blocks *)

Lemma and_then_yield {A : Type} (r : result A) (g k : generator A) :
  and_then (yield r g) k = yield r (and_then g k).
Proof. by destruct r. Qed.

Lemma raised_and_then {A : Type} (g k : generator A) :
  raised (and_then g k) = match raised g with Some e => Some e | None => raised k end.
Proof. induction g as [|e|a rest IH]; simpl; done. Qed.

Lemma yielded_and_then_raised {A : Type} (g : generator A) (e : exn) :
  yielded (and_then g (Raised e)) = yielded g.
Proof. induction g as [|e'|a rest IH]; simpl; [done..|]. by rewrite IH. Qed.

(** After a blank line the buffer is empty, so the iterator on the rest of
    the file starts afresh. *)
Lemma iterate_lines_blank (pre : list string) (blank : string) (rest : list string) :
  strip blank = EmptyString →
  ∀ lines,
    iterate_lines (pre ++ blank :: rest) lines
    = and_then (iterate_lines (pre ++ [blank]) lines) (iterate_lines rest []).
Proof.
  intros Hb. induction pre as [|line pre IH]; intros lines; simpl.
  - rewrite Hb. by rewrite and_then_yield.
  - destruct (strip line) as [|c s].
    + by rewrite and_then_yield, IH.
    + apply IH.
Qed.

Lemma iterate_lines_blank_first (blank : string) (rest : list string) :
  strip blank = EmptyString →
  iterate_lines (blank :: rest) [] = Raised IndexError.
Proof. intros Hb. simpl. by rewrite Hb. Qed.

(** The reader drops the second of two blank lines, and a blank first line. *)
Lemma read_ner_lines_blank_blank (pre : list string) (b1 b2 : string)
    (post : list string) :
  strip b1 = EmptyString → strip b2 = EmptyString →
  ∀ data examples,
    read_ner_lines (pre ++ b1 :: b2 :: post) data examples
    = read_ner_lines (pre ++ b1 :: post) data examples.
Proof.
  intros H1 H2. induction pre as [|line pre IH]; intros data examples.
  - simpl. rewrite H1. simpl. rewrite H2. simpl. by destruct examples.
  - cbn [app read_ner_lines].
    destruct (startswith (strip line) "-DOCSTART-"); [apply IH|].
    destruct (strip line) as [|c s].
    + destruct examples; apply IH.
    + destruct (split "009" (-1) (String c s)) as [|? [|? [|]]];
        first [reflexivity | apply IH].
Qed.

(** C9 (as the code has it). A blank first line makes the iterator raise
    [IndexError] at once.  Two consecutive blank lines make it raise
    [IndexError] after the records of the blocks before them, provided those
    blocks parse (the iterator stops at the first block that does not).
    The stream reader instead reads such a file as if the extra blank line
    were not there. *)
Theorem C9_empty_block_raises_IndexError (pre : list string) (b1 b2 : string)
    (post : list string) :
  strip b1 = EmptyString → strip b2 = EmptyString →
  process_example [] = Raise IndexError
  ∧ iterate_lines (b1 :: post) [] = Raised IndexError
  ∧ (raised (iterate_lines (pre ++ [b1]) []) = None →
     raised (iterate_lines (pre ++ b1 :: b2 :: post) []) = Some IndexError
     ∧ yielded (iterate_lines (pre ++ b1 :: b2 :: post) [])
       = yielded (iterate_lines (pre ++ [b1]) []))
  ∧ read_ner_from_tsv (b1 :: post) = read_ner_from_tsv post
  ∧ read_ner_from_tsv (pre ++ b1 :: b2 :: post) = read_ner_from_tsv (pre ++ b1 :: post).
Proof.
  intros H1 H2. split; [reflexivity|]. split; [by apply iterate_lines_blank_first|].
  split; [|split].
  - intros Hpre. rewrite (iterate_lines_blank pre b1 (b2 :: post) H1).
    rewrite (iterate_lines_blank_first b2 post H2).
    by rewrite raised_and_then, Hpre, yielded_and_then_raised.
  - unfold read_ner_from_tsv. simpl. by rewrite H1.
  - by apply read_ner_lines_blank_blank.
Qed.

Lemma C9_witness :
  raised (iterate_lines two_blank_lines_corpus []) = Some IndexError
  ∧ yielded (iterate_lines two_blank_lines_corpus [])
    = [MedMentionExample.mk "Cancer" "Cancer is bad." "Cancer Cancer is bad." "1" []].
Proof.
  refine (proj1 (proj2 (proj2 (C9_empty_block_raises_IndexError
    [ "1|t|Cancer" +:+ NL; "1|a|Cancer is bad." +:+ NL ] NL NL
    [ "2|t|Flu" +:+ NL; "2|a|Flu is common." +:+ NL ] eq_refl eq_refl))) eq_refl).
Defined.

(** C9 as stated fails: in this file two blank lines follow a block that
    does not parse, and the iterator raises [ValueError] at the first blank
    line; it never gets to the empty block. *)
Lemma C9_counterexample :
  let file := [ "no bars" +:+ NL; NL; NL ] in
  strip NL = EmptyString
  ∧ iterate_lines file [] = Raised ValueError
  ∧ raised (iterate_lines file []) ≠ Some IndexError.
Proof. vm_compute. repeat split. discriminate. Qed.

(** * Further properties *)

(** ** Stripping and splitting *)

Lemma lstrip_head (s : string) :
  lstrip s = EmptyString ∨ ∃ c r, lstrip s = String c r ∧ isspace c = false.
Proof.
  induction s as [|c s IH]; simpl; [by left|].
  destruct (isspace c) eqn:Hc; [exact IH|]. right. by exists c, s.
Qed.

Lemma lstrip_nonspace (c : ascii) (r : string) :
  isspace c = false → lstrip (String c r) = String c r.
Proof. intros Hc. simpl. by rewrite Hc. Qed.

Lemma rstrip_head (c : ascii) (r : string) :
  isspace c = false → ∃ r', rstrip (String c r) = String c r'.
Proof.
  intros Hc. simpl. destruct (rstrip r) as [|d r'].
  - rewrite Hc. by eexists.
  - by eexists.
Qed.

Lemma rstrip_cons (c : ascii) (r : string) :
  rstrip (String c r)
  = match rstrip r with
    | EmptyString => if isspace c then EmptyString else String c EmptyString
    | String d r' => String c (String d r')
    end.
Proof. simpl. by destruct (rstrip r). Qed.

Lemma rstrip_idempotent (s : string) : rstrip (rstrip s) = rstrip s.
Proof.
  induction s as [|c s IH]; [reflexivity|]. rewrite rstrip_cons.
  destruct (rstrip s) as [|d r'] eqn:Hr.
  - destruct (isspace c) eqn:Hc; [reflexivity|]. simpl. by rewrite Hc.
  - rewrite rstrip_cons, IH. reflexivity.
Qed.

Lemma strip_idempotent (s : string) : strip (strip s) = strip s.
Proof.
  unfold strip. destruct (lstrip_head s) as [->|(c & r & -> & Hc)]; [reflexivity|].
  destruct (rstrip_head c r Hc) as [r' Hr'].
  rewrite Hr', (lstrip_nonspace c r' Hc), <- Hr'. apply rstrip_idempotent.
Qed.

Lemma rstrip_last (s : string) (c : ascii) :
  last_char (rstrip s) = Some c → isspace c = false.
Proof.
  revert c. induction s as [|d s IH]; intros c; [done|]. rewrite rstrip_cons.
  destruct (rstrip s) as [|d' r'] eqn:Hr.
  - destruct (isspace d) eqn:Hd; simpl; [done|]. by intros [= <-].
  - change (last_char (String d (String d' r')))
      with (match last_char (String d' r') with Some x => Some x | None => Some d end).
    destruct (last_char (String d' r')) as [x|] eqn:Hl.
    + intros [= <-]. by apply IH.
    + simpl in Hl. by destruct (last_char r').
Qed.

(** A stripped string neither starts nor ends with whitespace. *)
Lemma strip_ends (s : string) :
  (∀ c r, strip s = String c r → isspace c = false)
  ∧ (∀ c, last_char (strip s) = Some c → isspace c = false).
Proof.
  split; [|intros c; apply rstrip_last].
  unfold strip. intros c r.
  destruct (lstrip_head s) as [->|(d & r0 & -> & Hd)]; [done|].
  destruct (rstrip_head d r0 Hd) as [r' ->]. by intros [= <- _].
Qed.

Lemma split_zero (sep : ascii) (s : string) : split sep 0 s = [s].
Proof.
  induction s as [|c s IH]; [reflexivity|]. simpl.
  rewrite andb_false_r. by rewrite IH.
Qed.

Lemma split_not_nil (sep : ascii) (s : string) (maxsplit : Z) :
  split sep maxsplit s ≠ [].
Proof.
  revert maxsplit. induction s as [|c s IH]; intros maxsplit; simpl; [done|].
  destruct (_ && _); [done|]. by destruct (split sep maxsplit s).
Qed.

Lemma split_field_sep (sep : ascii) (w r : string) (maxsplit : Z) :
  maxsplit ≠ 0%Z → contains sep w = false →
  split sep maxsplit (w +:+ String sep r) = w :: split sep (maxsplit - 1) r.
Proof.
  intros Hm. induction w as [|c w IH]; simpl.
  - intros _. rewrite Ascii.eqb_refl.
    by destruct (Z.eqb_spec maxsplit 0).
  - intros [Hc Hw]%orb_false_elim. rewrite Hc. simpl. by rewrite IH.
Qed.

(** The first field of a split with at least two fields, and the rest. *)
Lemma split_cons_inv (sep : ascii) (s : string) :
  ∀ (maxsplit : Z) (h h2 : string) (t : list string),
    split sep maxsplit s = h :: h2 :: t →
    ∃ r, s = h +:+ String sep r
         ∧ contains sep h = false
         ∧ maxsplit ≠ 0%Z
         ∧ split sep (maxsplit - 1) r = h2 :: t.
Proof.
  induction s as [|c s IH]; intros maxsplit h h2 t; simpl; [done|].
  destruct (Ascii.eqb_spec c sep) as [->|Hc]; simpl.
  - destruct (Z.eqb_spec maxsplit 0) as [Hz|Hz]; simpl.
    + destruct (split sep maxsplit s) as [|h' t'] eqn:Hs; [done|].
      intros [= <- ->]. apply IH in Hs as (? & _ & _ & ? & _). done.
    + intros [= <- Hs]. by exists s.
  - destruct (split sep maxsplit s) as [|h' t'] eqn:Hs; [done|].
    intros [= <- ->]. apply IH in Hs as (r & -> & Hh & Hz & Hr).
    exists r. repeat split; try done. simpl.
    apply orb_false_intro; [|done]. by apply Ascii.eqb_neq.
Qed.

Lemma split_singleton_inv (sep : ascii) (s : string) :
  ∀ (maxsplit : Z) (h : string), split sep maxsplit s = [h] → h = s.
Proof.
  induction s as [|c s IH]; intros maxsplit h; simpl; [by intros [= <-]|].
  destruct (_ && _); [intros [= _ Hs]; by apply split_not_nil in Hs|].
  destruct (split sep maxsplit s) as [|h' t'] eqn:Hs.
  - by apply split_not_nil in Hs.
  - intros [= <- ->]. by rewrite (IH _ _ Hs).
Qed.

Lemma join_cons_cons (sep x y : string) (l : list string) :
  join sep (x :: y :: l) = x +:+ sep +:+ join sep (y :: l).
Proof. reflexivity. Qed.

(** Joining the fields with the separator gives the string back. *)
Lemma join_split (sep : ascii) (s : string) (maxsplit : Z) :
  join (String sep EmptyString) (split sep maxsplit s) = s.
Proof.
  revert maxsplit. induction s as [|c s IH]; intros maxsplit; [done|].
  cbn [split]. destruct (_ && _) eqn:Hc.
  - apply andb_prop in Hc as [->%Ascii.eqb_eq _].
    specialize (IH (maxsplit - 1)%Z).
    destruct (split sep (maxsplit - 1) s) as [|h t] eqn:Hs;
      [by apply split_not_nil in Hs|].
    rewrite join_cons_cons, IH. reflexivity.
  - specialize (IH maxsplit).
    destruct (split sep maxsplit s) as [|h t] eqn:Hs;
      [by apply split_not_nil in Hs|].
    destruct t as [|h2 t].
    + simpl in *. by rewrite IH.
    + rewrite join_cons_cons in *. rewrite append_cons. by rewrite IH.
Qed.

(** ** More on the record parser *)

Lemma mapM_Raise_inv {A B : Type} (f : A → result B) (l : list A) (e : exn) :
  mapM f l = Raise e → ∃ x, x ∈ l ∧ f x = Raise e.
Proof.
  induction l as [|x l IH]; cbn [mapM]; [done|].
  destruct (f x) as [y|e'] eqn:Hx; cbn [bind].
  - destruct (mapM f l) as [ys|e'']; cbn [bind]; [done|].
    intros [= <-]. destruct (IH eq_refl) as (z & ? & ?).
    exists z. split; [apply elem_of_cons; by right | done].
  - intros [= <-]. exists x. split; [apply elem_of_cons; by left | done].
Qed.

Lemma mapM_Forall2 {A B : Type} (f : A → result B) (l : list A) (ys : list B) :
  Forall2 (λ x y, f x = Ok y) l ys → mapM f l = Ok ys.
Proof.
  induction 1 as [|x y l ys Hx _ IH]; cbn [mapM]; [done|].
  by rewrite Hx, IH.
Qed.

Lemma int_Raise (s : string) (e : exn) : int s = Raise e → e = ValueError.
Proof.
  unfold int. cbv zeta.
  match goal with |- match ?x with _ => _ end = _ → _ => destruct x end;
    [done | by intros [= <-]].
Qed.

Lemma split_header_Raise (line : string) (e : exn) :
  split_header line = Raise e → e = ValueError.
Proof.
  unfold split_header.
  destruct (map strip (split "|" 2 line)) as [|? [|? [|? [|]]]]; try done;
    by intros [= <-].
Qed.

Lemma process_entity_line_Raise (entity_line : string) (e : exn) :
  process_entity_line entity_line = Raise e → e = ValueError.
Proof.
  unfold process_entity_line.
  destruct (split "009" (-1) entity_line)
    as [|f0 [|f1 [|f2 [|f3 [|f4 [|f5 [|]]]]]]]; try (by intros [= <-]).
  unfold index. destruct (split "," (-1) f4) as [|h t] eqn:Hs;
    [by apply split_not_nil in Hs|]. cbn [lookup list_lookup bind].
  destruct (int f1) as [a|e1] eqn:H1; cbn [bind];
    [|intros [= <-]; by apply int_Raise in H1].
  destruct (int f2) as [b|e2] eqn:H2; cbn [bind]; [done|].
  intros [= <-]. by apply int_Raise in H2.
Qed.

(** X1. A block of fewer than two lines is never accepted.  The parser only
    raises [ValueError] or [IndexError], and [IndexError] only for a block of
    fewer than two lines. *)
Theorem process_example_failures (lines : list string) :
  ((length lines < 2)%nat → ∃ e, process_example lines = Raise e)
  ∧ (∀ e, process_example lines = Raise e →
          e = ValueError ∨ (e = IndexError ∧ (length lines < 2)%nat)).
Proof.
  unfold process_example.
  destruct lines as [|line0 [|line1 rest]]; cbn [index lookup list_lookup bind length].
  - split; [by eexists|]. intros e [= <-]. right. split; [done|lia].
  - destruct (split_header line0) as [[pubmed_id title]|e0] eqn:H0; cbn [bind].
    + split; [by eexists|]. intros e [= <-]. right. split; [done|lia].
    + split; [by eexists|]. intros e [= <-]. left. by eapply split_header_Raise.
  - split; [lia|]. intros e H. left.
    destruct (split_header line0) as [[pubmed_id title]|e0] eqn:H0; cbn [bind] in *;
      [|injection H as <-; by eapply split_header_Raise].
    destruct (split_header line1) as [[? abstract]|e1] eqn:H1; cbn [bind] in *;
      [|injection H as <-; by eapply split_header_Raise].
    destruct (mapM process_entity_line (drop 2 (line0 :: line1 :: rest)))
      as [ents|e2] eqn:H2; cbn [bind] in *; [done|].
    injection H as <-. apply mapM_Raise_inv in H2 as (x & _ & Hx).
    by eapply process_entity_line_Raise.
Qed.

Lemma process_example_failures_witness :
  ∃ e, process_example ["1|t|Cancer"] = Raise e.
Proof. apply (proj1 (process_example_failures ["1|t|Cancer"])). simpl. lia. Defined.

Lemma split_header_Ok (line p t : string) :
  split_header line = Ok (p, t) →
  ∃ a b c,
    line = a +:+ "|" +:+ b +:+ "|" +:+ c
    ∧ contains "|" a = false ∧ contains "|" b = false
    ∧ p = strip a ∧ t = strip c.
Proof.
  unfold split_header.
  destruct (split "|" 2 line) as [|a [|b [|c [|]]]] eqn:Hs; try done.
  cbn [map]. intros [= <- <-].
  apply split_cons_inv in Hs as (r & -> & Ha & _ & Hs).
  apply split_cons_inv in Hs as (r' & -> & Hb & _ & Hs).
  apply split_singleton_inv in Hs as ->.
  by exists a, b, r'.
Qed.

Lemma split_header_bars (a b c : string) :
  contains "|" a = false → contains "|" b = false →
  split_header (a +:+ "|" +:+ b +:+ "|" +:+ c) = Ok (strip a, strip c).
Proof.
  intros Ha Hb. unfold split_header.
  change (a +:+ "|" +:+ b +:+ "|" +:+ c)
    with (a +:+ String "|" (b +:+ String "|" c)).
  rewrite (split_field_sep "|" a) by done.
  rewrite (split_field_sep "|" b) by done.
  change (2 - 1 - 1)%Z with 0%Z. by rewrite split_zero.
Qed.

(** X2. A title or abstract line is accepted exactly when it has at least
    two bars: it then reads [a|b|c] with no bar in [a] and [b], and gives the
    stripped [a] and the stripped [c]; bars in [c] belong to the text. *)
Theorem split_header_format (line p t : string) :
  split_header line = Ok (p, t) ↔
  ∃ a b c,
    line = a +:+ "|" +:+ b +:+ "|" +:+ c
    ∧ contains "|" a = false ∧ contains "|" b = false
    ∧ p = strip a ∧ t = strip c.
Proof.
  split; [apply split_header_Ok|].
  intros (a & b & c & -> & Ha & Hb & -> & ->). by apply split_header_bars.
Qed.

Lemma split_header_format_witness :
  split_header "7 |t| Dose | response " = Ok ("7", "Dose | response").
Proof.
  apply (proj2 (split_header_format "7 |t| Dose | response " "7" "Dose | response")).
  by exists "7 ", "t", " Dose | response ".
Defined.

Lemma process_entity_line_parsed (entity_line : string) (e : MedMentionEntity.t) :
  parsed_from entity_line e → process_entity_line entity_line = Ok e.
Proof.
  intros (f0 & f1 & f2 & f3 & f4 & f5 & Hs & H1 & H2 & H3 & [more H4] & H5).
  unfold process_entity_line. rewrite Hs. unfold index. rewrite H4.
  cbn [lookup list_lookup bind]. rewrite H1, H2. cbn [bind].
  destruct e. simpl in *. by subst.
Qed.

(** X3. A block of a title line, an abstract line and annotation lines is
    accepted exactly when both headers have their two bars and every
    annotation line has six tab-separated fields with integers in the second
    and third; the record then has the title's id, both texts, and one entity
    per annotation line, in order. *)
Theorem process_example_accepts (line0 line1 : string) (annotations : list string)
    (r : MedMentionExample.t) :
  process_example (line0 :: line1 :: annotations) = Ok r ↔
  ∃ pubmed_id title other abstract,
    split_header line0 = Ok (pubmed_id, title)
    ∧ split_header line1 = Ok (other, abstract)
    ∧ Forall2 parsed_from annotations (MedMentionExample.entities r)
    ∧ r = MedMentionExample.mk title abstract ((title +:+ " ") +:+ abstract)
            pubmed_id (MedMentionExample.entities r).
Proof.
  unfold process_example. cbn [index lookup list_lookup bind drop]. split.
  - intros H.
    apply bind_Ok in H as ([pubmed_id title] & H0 & H).
    apply bind_Ok in H as ([other abstract] & H1 & H).
    apply bind_Ok in H as (entities & Hents & [= <-]).
    exists pubmed_id, title, other, abstract. repeat split; try done.
    cbn [MedMentionExample.entities]. apply mapM_Ok in Hents.
    eapply Forall2_impl; [exact Hents|]. intros ??. apply process_entity_line_Ok.
  - intros (pubmed_id & title & other & abstract & -> & -> & Hall & Hr).
    cbn [bind]. rewrite drop_0.
    rewrite (mapM_Forall2 process_entity_line annotations
               (MedMentionExample.entities r)).
    + cbn [bind]. by rewrite <- Hr.
    + eapply Forall2_impl; [exact Hall|]. intros ??. apply process_entity_line_parsed.
Qed.

Lemma process_example_accepts_witness :
  process_example ["3|t|Gout"; "3|a|Gout hurts."]
  = Ok (MedMentionExample.mk "Gout" "Gout hurts." "Gout Gout hurts." "3" []).
Proof.
  apply (proj2 (process_example_accepts "3|t|Gout" "3|a|Gout hurts." []
    (MedMentionExample.mk "Gout" "Gout hurts." "Gout Gout hurts." "3" []))).
  exists "3", "Gout", "3", "Gout hurts.". repeat split. constructor.
Defined.

(** X4. The [pubmed_id], [title] and [abstract] of a record carry no
    surrounding whitespace: stripping them again changes nothing, and the
    character on either side of the joining space of [text], if any, is not
    whitespace. *)
Theorem process_example_stripped (lines : list string) (r : MedMentionExample.t) :
  process_example lines = Ok r →
  strip (MedMentionExample.pubmed_id r) = MedMentionExample.pubmed_id r
  ∧ strip (MedMentionExample.title r) = MedMentionExample.title r
  ∧ strip (MedMentionExample.abstract r) = MedMentionExample.abstract r
  ∧ (∀ c, last_char (MedMentionExample.title r) = Some c → isspace c = false)
  ∧ (∀ c s, MedMentionExample.abstract r = String c s → isspace c = false).
Proof.
  unfold process_example. intros H.
  apply bind_Ok in H as (line0 & _ & H).
  apply bind_Ok in H as ([pubmed_id title] & H0 & H).
  apply bind_Ok in H as (line1 & _ & H).
  apply bind_Ok in H as ([other abstract] & H1 & H).
  apply bind_Ok in H as (entities & _ & [= <-]). simpl.
  apply split_header_Ok in H0 as (a & b & c & _ & _ & _ & -> & ->).
  apply split_header_Ok in H1 as (a' & b' & c' & _ & _ & _ & _ & ->).
  rewrite !strip_idempotent. repeat split.
  - apply strip_ends.
  - apply strip_ends.
Qed.

Lemma process_example_stripped_witness :
  strip "Cancer" = "Cancer".
Proof.
  exact (proj1 (proj2 (process_example_stripped
    [ "1 | t |  Cancer  "; "1|a| Cancer is bad. " ]
    (MedMentionExample.mk "Cancer" "Cancer is bad." "Cancer Cancer is bad." "1" [])
    eq_refl))).
Defined.

(** ** More on the stream iterator *)

(** X5. A block of non-blank lines that ends with a blank line is parsed
    from its stripped lines (after what the buffer already holds), and the
    iterator goes on with the rest of the file on an empty buffer.  At the end
    of the file the lines still in the buffer are parsed once, and nothing is
    parsed when there are none. *)
Theorem iterate_lines_block (block : list string) (blank : string) (rest lines : list string) :
  Forall (λ l, strip l ≠ EmptyString) block →
  strip blank = EmptyString →
  iterate_lines (block ++ blank :: rest) lines
  = yield (process_example (lines ++ map strip block)) (iterate_lines rest [])
  ∧ iterate_lines block lines
    = match lines ++ map strip block with
      | [] => Done
      | (_ :: _) as buffer => yield (process_example buffer) Done
      end.
Proof.
  intros Hblock Hblank. revert lines.
  induction Hblock as [|l block Hl _ IH]; intros lines.
  - cbn [app iterate_lines map]. rewrite Hblank, app_nil_r. by destruct lines.
  - cbn [app iterate_lines map]. destruct (strip l) as [|c s] eqn:El; [done|].
    destruct (IH (lines ++ [String c s])) as [-> ->].
    by rewrite <- !app_assoc.
Qed.

Lemma iterate_lines_block_witness :
  iterate_lines [ "3|t|Gout" +:+ NL; "3|a|Gout hurts." +:+ NL; NL;
                  "4|t|Rash" +:+ NL ] []
  = yield (process_example ["3|t|Gout"; "3|a|Gout hurts."])
      (iterate_lines ["4|t|Rash" +:+ NL] []).
Proof.
  refine (proj1 (iterate_lines_block
    [ "3|t|Gout" +:+ NL; "3|a|Gout hurts." +:+ NL ] NL ["4|t|Rash" +:+ NL] [] _ _)).
  - repeat constructor; discriminate.
  - reflexivity.
Defined.

Lemma yielded_and_then {A : Type} (g k : generator A) :
  yielded (and_then g k)
  = yielded g ++ match raised g with None => yielded k | Some _ => [] end.
Proof. induction g as [|e|a g IH]; simpl; [done..|]. by rewrite IH. Qed.

Lemma iterate_lines_trailing_blank (pre : list string) (l blank : string) :
  strip l ≠ EmptyString → strip blank = EmptyString →
  ∀ lines, iterate_lines (pre ++ [l; blank]) lines = iterate_lines (pre ++ [l]) lines.
Proof.
  intros Hl Hb. induction pre as [|x pre IH]; intros lines.
  - simpl. destruct (strip l) as [|c s]; [done|]. rewrite Hb.
    by destruct lines.
  - cbn [app iterate_lines]. destruct (strip x); by rewrite IH.
Qed.

(** X6. When the last line of a corpus is not blank, a blank line after it
    changes nothing; and a second corpus appended after that blank line is
    iterated after the first: its records follow, unless the first raised. *)
Theorem iterate_lines_concat (pre : list string) (l blank : string) (file2 : list string) :
  strip l ≠ EmptyString → strip blank = EmptyString →
  let file1 := pre ++ [l] in
  iterate_lines (file1 ++ [blank]) [] = iterate_lines file1 []
  ∧ iterate_lines (file1 ++ blank :: file2) []
    = and_then (iterate_lines file1 []) (iterate_lines file2 [])
  ∧ yielded (iterate_lines (file1 ++ blank :: file2) [])
    = yielded (iterate_lines file1 [])
      ++ match raised (iterate_lines file1 []) with
         | None => yielded (iterate_lines file2 [])
         | Some _ => []
         end.
Proof.
  intros Hl Hb file1.
  assert (H1 : iterate_lines (file1 ++ [blank]) [] = iterate_lines file1 []).
  { subst file1. rewrite <- app_assoc. by apply iterate_lines_trailing_blank. }
  assert (H2 : iterate_lines (file1 ++ blank :: file2) []
               = and_then (iterate_lines file1 []) (iterate_lines file2 [])).
  { by rewrite (iterate_lines_blank file1 blank file2 Hb), H1. }
  split; [done|]. split; [done|]. rewrite H2. apply yielded_and_then.
Qed.

Lemma iterate_lines_concat_witness :
  iterate_lines ([ "3|t|Gout" +:+ NL; "3|a|Gout hurts." +:+ NL ] ++ [NL]) []
  = iterate_lines [ "3|t|Gout" +:+ NL; "3|a|Gout hurts." +:+ NL ] [].
Proof.
  refine (proj1 (iterate_lines_concat ["3|t|Gout" +:+ NL]
                   ("3|a|Gout hurts." +:+ NL) NL [] _ _)).
  - discriminate.
  - reflexivity.
Defined.

Lemma read_ner_lines_stripped (file file' : list string) :
  Forall2 (λ l l', strip l = strip l') file file' →
  ∀ data examples,
    read_ner_lines file data examples = read_ner_lines file' data examples.
Proof.
  induction 1 as [|l l' file file' Hl _ IH]; intros data examples; [done|].
  cbn [read_ner_lines]. rewrite Hl.
  destruct (startswith (strip l') "-DOCSTART-"); [apply IH|].
  destruct (strip l') as [|c s].
  - destruct examples; apply IH.
  - destruct (split "009" (-1) (String c s)) as [|? [|? [|]]];
      first [reflexivity | apply IH].
Qed.

(** X7. The iterator and the stream reader only see the stripped lines: two
    files whose lines agree once stripped (different indentation, trailing
    blanks or line ends) give the same records, the same sentences and the
    same exception. *)
Theorem iterate_lines_stripped (file file' : list string) :
  Forall2 (λ l l', strip l = strip l') file file' →
  (∀ lines, iterate_lines file lines = iterate_lines file' lines)
  ∧ read_ner_from_tsv file = read_ner_from_tsv file'.
Proof.
  intros Hall. split; [|by apply read_ner_lines_stripped].
  induction Hall as [|l l' file file' Hl _ IH]; intros lines; [done|].
  cbn [iterate_lines]. rewrite Hl. destruct (strip l'); by rewrite IH.
Qed.

Lemma iterate_lines_stripped_witness :
  iterate_lines [ "3|t|Gout" +:+ NL; "3|a|Gout hurts." +:+ NL ] []
  = iterate_lines [ "  3|t|Gout"; "3|a|Gout hurts." +:+ TAB ] [].
Proof.
  apply (proj1 (iterate_lines_stripped
           [ "3|t|Gout" +:+ NL; "3|a|Gout hurts." +:+ NL ]
           [ "  3|t|Gout"; "3|a|Gout hurts." +:+ TAB ]
           ltac:(repeat constructor))).
Defined.

(** ** The plain reader of the corpus *)

Lemma read_med_mentions_loop_spec (g : generator MedMentionExample.t)
    (examples : list SpacyNerExample) :
  read_med_mentions_loop g examples
  = match raised g with
    | Some e => Raise e
    | None => Ok (examples ++ map spacy_of (yielded g))
    end.
Proof.
  revert examples. induction g as [|e|d g IH]; intros examples; simpl.
  - by rewrite app_nil_r.
  - done.
  - rewrite IH. destruct (raised g); [done|]. by rewrite <- app_assoc.
Qed.

(** X8. [read_med_mentions] gives one pair per record, in corpus order, when
    the whole corpus parses; the first exception of the iterator discards
    everything read before it.  A missing file raises [FileNotFoundError]. *)
Theorem read_med_mentions_all_or_nothing (fs : filesystem) (filename : string) :
  read_med_mentions fs filename
  = match raised (med_mentions_example_iterator fs filename) with
    | Some e => Raise e
    | None => Ok (map spacy_of (yielded (med_mentions_example_iterator fs filename)))
    end
  ∧ (fs !! filename = None →
     read_med_mentions fs filename = Raise (FileNotFoundError filename)).
Proof.
  unfold read_med_mentions. rewrite read_med_mentions_loop_spec. split; [done|].
  unfold med_mentions_example_iterator. by intros ->.
Qed.

Lemma read_med_mentions_all_or_nothing_witness :
  read_med_mentions ∅ "corpus.txt" = Raise (FileNotFoundError "corpus.txt").
Proof.
  apply (proj2 (read_med_mentions_all_or_nothing ∅ "corpus.txt")). reflexivity.
Defined.

(** ** More on the corpus splitter *)

Lemma mapM_total {A B : Type} (f : A → B) (l : list A) :
  mapM (λ x, Ok (f x)) l = Ok (map f l).
Proof. induction l as [|x l IH]; cbn [mapM bind map]; [done|]. by rewrite IH. Qed.

Lemma spacy_format_entities_raw (d : MedMentionExample.t) :
  spacy_format_entities None false d
  = Ok (map spacy_entity (MedMentionExample.entities d)).
Proof. unfold spacy_format_entities. apply (mapM_total spacy_entity). Qed.

Lemma spacy_format_entities_span_only (label_mapping : option (gmap string string))
    (d : MedMentionExample.t) :
  spacy_format_entities label_mapping true d
  = Ok (map (λ x, (MedMentionEntity.start x, MedMentionEntity.end_ x, "ENTITY"))
            (MedMentionExample.entities d)).
Proof.
  unfold spacy_format_entities.
  apply (mapM_total (λ x, (MedMentionEntity.start x, MedMentionEntity.end_ x, "ENTITY"))).
Qed.

Lemma rendered_default (items : list (MedMentionExample.t * output)) :
  Forall (rendered None false true) items →
  items.*2 = Spacy <$> (spacy_of <$> items.*1).
Proof.
  induction 1 as [|[d o] items (ents & Hents & Ho) _ IH]; [done|].
  rewrite !fmap_cons, IH. f_equal. simpl in *.
  rewrite spacy_format_entities_raw in Hents. injection Hents as <-.
  by rewrite Ho.
Qed.

(** X9. With no mapping, no collapsing and the spaCy format, each of the
    three lists is a sub-list, in order, of what [read_med_mentions] returns
    for the corpus file of the directory. *)
Theorem read_full_med_mentions_default (fs : filesystem) (directory : string)
    (train dev test : list output) :
  read_full_med_mentions fs directory None false true = Ok (train, dev, test) →
  ∃ examples,
    read_med_mentions fs (path_join directory "corpus_pubtator.txt") = Ok examples
    ∧ train `sublist_of` (Spacy <$> examples)
    ∧ dev `sublist_of` (Spacy <$> examples)
    ∧ test `sublist_of` (Spacy <$> examples).
Proof.
  unfold read_full_med_mentions. simpl. intros H.
  apply bind_Ok in H as (train_ids & _ & H).
  apply bind_Ok in H as (dev_ids & _ & H).
  apply bind_Ok in H as (test_ids & _ & H).
  apply split_loop_Ok in H as (Hnone & items & Hfst & Hall & -> & -> & ->).
  apply rendered_default in Hall.
  exists (spacy_of <$> items.*1). split.
  - unfold read_med_mentions. rewrite read_med_mentions_loop_spec, Hnone.
    by rewrite Hfst.
  - rewrite <- Hall. repeat split; apply fmap_sublist, sublist_filter.
Qed.

Lemma read_full_med_mentions_default_witness :
  ∃ examples,
    read_med_mentions sample_fs (path_join "data" "corpus_pubtator.txt") = Ok examples
    ∧ [Spacy (spacy_of doc1); Spacy (spacy_of doc2)] `sublist_of` (Spacy <$> examples)
    ∧ [] `sublist_of` (Spacy <$> examples)
    ∧ [Spacy (spacy_of doc3)] `sublist_of` (Spacy <$> examples).
Proof.
  apply (read_full_med_mentions_default sample_fs "data").
  vm_compute. reflexivity.
Defined.

Lemma split_loop_span_only (lm lm' : option (gmap string string)) (sf : bool)
    (tr dv te : gset string) (g : generator MedMentionExample.t) :
  ∀ a b c,
    split_loop lm true sf tr dv te g a b c = split_loop lm' true sf tr dv te g a b c.
Proof.
  induction g as [|e|d g IH]; intros a b c; cbn [split_loop]; [done..|].
  rewrite !spacy_format_entities_span_only. cbn [bind].
  repeat case_decide; apply IH.
Qed.

(** X10. With [span_only] the mapping is not consulted: the call gives the
    same result, or raises the same exception, for every mapping or none; and
    in the spaCy format every span of every returned example is labelled
    "ENTITY". *)
Theorem span_only_ignores_mapping (fs : filesystem) (directory : string)
    (label_mapping : option (gmap string string)) :
  (∀ label_mapping' spacy_format,
     read_full_med_mentions fs directory label_mapping true spacy_format
     = read_full_med_mentions fs directory label_mapping' true spacy_format)
  ∧ (∀ train dev test,
       read_full_med_mentions fs directory label_mapping true true
         = Ok (train, dev, test) →
       Forall (λ o, ∃ text spans,
                      o = Spacy (text, spans)
                      ∧ Forall (λ span, span.2 = "ENTITY") spans)
              (train ++ dev ++ test)).
Proof.
  split.
  - intros lm' sf. unfold read_full_med_mentions. simpl.
    destruct (read_ids fs _) as [tr|]; [|done]. simpl.
    destruct (read_ids fs _) as [dv|]; [|done]. simpl.
    destruct (read_ids fs _) as [te|]; [|done]. simpl.
    apply split_loop_span_only.
  - intros train dev test H. unfold read_full_med_mentions in H. simpl in H.
    apply bind_Ok in H as (train_ids & _ & H).
    apply bind_Ok in H as (dev_ids & _ & H).
    apply bind_Ok in H as (test_ids & _ & H).
    apply split_loop_Ok in H as (_ & items & _ & Hall & -> & -> & ->).
    assert (Hitems : ∀ item, item ∈ items →
              ∃ text spans, item.2 = Spacy (text, spans)
                            ∧ Forall (λ span, span.2 = "ENTITY") spans).
    { intros item Hin. rewrite Forall_forall in Hall.
      destruct (Hall item Hin) as (ents & Hents & ->).
      rewrite spacy_format_entities_span_only in Hents. injection Hents as <-.
      eexists _, _. split; [reflexivity|].
      apply Forall_fmap, Forall_forall. by intros. }
    cbn [app]. rewrite !Forall_app. repeat split; apply Forall_forall;
      intros o (item & -> & [_ Hin]%list_elem_of_filter)%list_elem_of_fmap;
      by apply Hitems.
Qed.

Lemma span_only_ignores_mapping_witness :
  Forall (λ o, ∃ text spans,
                 o = Spacy (text, spans)
                 ∧ Forall (λ span, span.2 = "ENTITY") spans)
         ([Spacy ("Cancer Cancer is bad.", [(0%Z, 6%Z, "ENTITY")]);
           Spacy ("Flu Flu is common.", [(0%Z, 3%Z, "ENTITY")])]
          ++ [] ++ [Spacy ("Gout Gout hurts.", [])]).
Proof.
  apply (proj2 (span_only_ignores_mapping sample_fs "data" (Some ∅))).
  vm_compute. reflexivity.
Defined.

Lemma process_example_Raise (lines : list string) (e : exn) :
  process_example lines = Raise e → e = ValueError ∨ e = IndexError.
Proof.
  unfold process_example.
  destruct lines as [|line0 [|line1 rest]]; cbn [index lookup list_lookup bind].
  - intros [= <-]. by right.
  - destruct (split_header line0) as [[pubmed_id title]|e0] eqn:H0; cbn [bind].
    + intros [= <-]. by right.
    + intros [= <-]. left. by eapply split_header_Raise.
  - intros H. left.
    destruct (split_header line0) as [[pubmed_id title]|e0] eqn:H0; cbn [bind] in H;
      [|injection H as <-; by eapply split_header_Raise].
    destruct (split_header line1) as [[? abstract]|e1] eqn:H1; cbn [bind] in H;
      [|injection H as <-; by eapply split_header_Raise].
    destruct (mapM process_entity_line (drop 2 (line0 :: line1 :: rest)))
      as [ents|e2] eqn:H2; cbn [bind] in H; [done|].
    injection H as <-. apply mapM_Raise_inv in H2 as (x & _ & Hx).
    by eapply process_entity_line_Raise.
Qed.

Lemma iterate_lines_raised (file lines : list string) (e : exn) :
  raised (iterate_lines file lines) = Some e → e = ValueError ∨ e = IndexError.
Proof.
  revert lines. induction file as [|l file IH]; intros lines; cbn [iterate_lines].
  - destruct lines as [|x lines]; [done|].
    destruct (process_example (x :: lines)) as [r|e'] eqn:Hp; simpl; [done|].
    intros [= <-]. by eapply process_example_Raise.
  - destruct (strip l); [|apply IH].
    destruct (process_example lines) as [r|e'] eqn:Hp; simpl; [apply IH|].
    intros [= <-]. by eapply process_example_Raise.
Qed.

Lemma spacy_format_entities_KeyError (label_mapping : option (gmap string string))
    (span_only : bool) (d : MedMentionExample.t) (e : exn) :
  spacy_format_entities label_mapping span_only d = Raise e →
  span_only = false
  ∧ ∃ mapping x,
      label_mapping = Some mapping
      ∧ x ∈ MedMentionExample.entities d
      ∧ mapping !! MedMentionEntity.mention_type x = None
      ∧ e = KeyError (MedMentionEntity.mention_type x).
Proof.
  unfold spacy_format_entities. intros (x & Hx & H)%mapM_Raise_inv.
  unfold label_function in H. destruct span_only; [done|].
  destruct label_mapping as [mapping|]; [|done].
  destruct (mapping !! MedMentionEntity.mention_type x) eqn:Hm; [done|].
  injection H as <-. split; [done|]. by exists mapping, x.
Qed.

Lemma split_loop_Raise (lm : option (gmap string string)) (so sf : bool)
    (tr dv te : gset string) (g : generator MedMentionExample.t) (e : exn) :
  ∀ a b c,
    split_loop lm so sf tr dv te g a b c = Raise e →
    raised g = Some e
    ∨ ∃ d, d ∈ yielded g ∧ spacy_format_entities lm so d = Raise e.
Proof.
  induction g as [|e'|d g IH]; intros a b c; cbn [split_loop].
  - done.
  - intros [= <-]. by left.
  - destruct (spacy_format_entities lm so d) as [ents|e'] eqn:Hd; cbn [bind].
    + intros H.
      assert (raised g = Some e
              ∨ ∃ d', d' ∈ yielded g ∧ spacy_format_entities lm so d' = Raise e)
        as [?|(d' & ? & ?)] by (repeat case_decide; by eapply IH).
      * by left.
      * right. exists d'. split; [|done]. simpl. apply elem_of_cons. by right.
    + intros [= <-]. right. exists d. split; [|done]. simpl. apply elem_of_cons. by left.
Qed.

(** X11. The exceptions of the splitter.  It raises [FileNotFoundError] for
    one of the four files it opens, [IndexError] or [ValueError] from the
    parser, or [KeyError]; and [KeyError] only when a mapping was given,
    [span_only] is unset and the key, the mention type of an entity of a
    yielded document, is not in the mapping. *)
Theorem read_full_med_mentions_exceptions (fs : filesystem) (directory : string)
    (label_mapping : option (gmap string string)) (span_only spacy_format : bool)
    (e : exn) :
  read_full_med_mentions fs directory label_mapping span_only spacy_format = Raise e →
  (∃ name, name ∈ opened_names
           ∧ fs !! path_join directory name = None
           ∧ e = FileNotFoundError (path_join directory name))
  ∨ e = IndexError
  ∨ e = ValueError
  ∨ (span_only = false
     ∧ ∃ mapping d x,
         label_mapping = Some mapping
         ∧ d ∈ yielded (med_mentions_example_iterator fs
                          (path_join directory "corpus_pubtator.txt"))
         ∧ x ∈ MedMentionExample.entities d
         ∧ mapping !! MedMentionEntity.mention_type x = None
         ∧ e = KeyError (MedMentionEntity.mention_type x)).
Proof.
  assert (Hnames : ∀ name,
    name ∈ ["corpus_pubtator.txt"; "corpus_pubtator_pmids_dev.txt";
            "corpus_pubtator_pmids_test.txt"; "corpus_pubtator_pmids_trng.txt"] →
    name ∈ opened_names) by done.
  unfold read_full_med_mentions, read_ids. simpl.
  destruct (fs !! path_join directory "corpus_pubtator_pmids_trng.txt") eqn:E4; simpl;
    [|intros [= <-]; left; eexists; split; [apply Hnames|done];
      do 3 (apply elem_of_cons; right); apply elem_of_cons; by left].
  destruct (fs !! path_join directory "corpus_pubtator_pmids_dev.txt") eqn:E2; simpl;
    [|intros [= <-]; left; eexists; split; [apply Hnames|done];
      do 1 (apply elem_of_cons; right); apply elem_of_cons; by left].
  destruct (fs !! path_join directory "corpus_pubtator_pmids_test.txt") eqn:E3; simpl;
    [|intros [= <-]; left; eexists; split; [apply Hnames|done];
      do 2 (apply elem_of_cons; right); apply elem_of_cons; by left].
  intros [Hg|(d & Hd & Hraise)]%split_loop_Raise.
  - unfold med_mentions_example_iterator in Hg.
    destruct (fs !! path_join directory "corpus_pubtator.txt") eqn:E0.
    + apply iterate_lines_raised in Hg as [->| ->]; auto.
    + simpl in Hg. injection Hg as <-. left. eexists. split; [apply Hnames|done].
      apply elem_of_cons. by left.
  - apply spacy_format_entities_KeyError in Hraise
      as (-> & mapping & x & -> & Hx & Hm & ->).
    do 3 right. split; [done|]. by exists mapping, d, x.
Qed.

Lemma read_full_med_mentions_exceptions_witness :
  (∃ name, name ∈ opened_names
           ∧ sample_fs !! path_join "data" name = None
           ∧ KeyError "T047" = FileNotFoundError (path_join "data" name))
  ∨ KeyError "T047" = IndexError
  ∨ KeyError "T047" = ValueError
  ∨ (false = false
     ∧ ∃ mapping d x,
         Some ({[ "T191" := "DISEASE" ]} : gmap string string) = Some mapping
         ∧ d ∈ yielded (med_mentions_example_iterator sample_fs
                          (path_join "data" "corpus_pubtator.txt"))
         ∧ x ∈ MedMentionExample.entities d
         ∧ mapping !! MedMentionEntity.mention_type x = None
         ∧ KeyError "T047" = KeyError (MedMentionEntity.mention_type x)).
Proof.
  apply (read_full_med_mentions_exceptions sample_fs "data"
           (Some {[ "T191" := "DISEASE" ]}) false true).
  vm_compute. reflexivity.
Defined.

Lemma split_loop_records (lm : option (gmap string string)) (so : bool)
    (tr dv te : gset string) (g : generator MedMentionExample.t) :
  ∀ a b c res,
    split_loop lm so false tr dv te g a b c = Ok res →
    split_loop None false false tr dv te g a b c = Ok res
    ∧ ∀ lm', split_loop lm' true false tr dv te g a b c = Ok res.
Proof.
  induction g as [|e|d g IH]; intros a b c res; cbn [split_loop]; [done..|].
  intros (ents & _ & H)%bind_Ok.
  rewrite spacy_format_entities_raw. cbn [bind].
  unfold appended in *.
  repeat case_decide; apply IH in H as [Hnone Hspan]; (split; [exact Hnone|]);
    intros lm'; rewrite spacy_format_entities_span_only; cbn [bind];
    repeat case_decide; try done; apply Hspan.
Qed.

(** X12. When the records themselves are asked for ([spacy_format] unset),
    the label policy only decides whether the call fails: a result returned
    under some mapping and flag is also the result without a mapping, and
    with [span_only] under any mapping. *)
Theorem records_ignore_labels (fs : filesystem) (directory : string)
    (label_mapping : option (gmap string string)) (span_only : bool)
    (res : list output * list output * list output) :
  read_full_med_mentions fs directory label_mapping span_only false = Ok res →
  read_full_med_mentions fs directory None false false = Ok res
  ∧ ∀ label_mapping',
      read_full_med_mentions fs directory label_mapping' true false = Ok res.
Proof.
  unfold read_full_med_mentions. simpl.
  destruct (read_ids fs _) as [tr|]; [|done]. simpl.
  destruct (read_ids fs _) as [dv|]; [|done]. simpl.
  destruct (read_ids fs _) as [te|]; [|done]. simpl.
  apply split_loop_records.
Qed.

Lemma records_ignore_labels_witness :
  read_full_med_mentions sample_fs "data" None false false
  = Ok ([Record_ doc1; Record_ doc2], [], [Record_ doc3]).
Proof.
  refine (proj1 (records_ignore_labels sample_fs "data"
    (Some {[ "T191" := "A"; "T047" := "B"; "T033" := "C" ]}) false
    ([Record_ doc1; Record_ doc2], [], [Record_ doc3]) _)).
  vm_compute. reflexivity.
Defined.

Lemma split_loop_lengths (lm : option (gmap string string)) (so sf : bool)
    (tr dv te : gset string) (g : generator MedMentionExample.t) :
  ∀ a b c a' b' c',
    split_loop lm so sf tr dv te g a b c = Ok (a', b', c') →
    (length a' + length b' + length c'
     = length a + length b + length c
       + length (filter (λ d, MedMentionExample.pubmed_id d ∈ tr ∪ dv ∪ te)
                        (yielded g)))%nat.
Proof.
  induction g as [|e|d g IH]; intros a b c a' b' c'; cbn [split_loop yielded].
  - intros [= <- <- <-]. rewrite filter_nil. simpl. lia.
  - done.
  - intros (ents & _ & Hloop)%bind_Ok.
    destruct (decide (MedMentionExample.pubmed_id d ∈ tr)) as [Htr|Htr];
      [|destruct (decide (MedMentionExample.pubmed_id d ∈ dv)) as [Hdv|Hdv];
        [|destruct (decide (MedMentionExample.pubmed_id d ∈ te)) as [Hte|Hte]]];
      apply IH in Hloop; rewrite ?length_app in Hloop; simpl in Hloop.
    + rewrite filter_cons_True by (apply elem_of_union; left; apply elem_of_union; by left).
      simpl. lia.
    + rewrite filter_cons_True by (apply elem_of_union; left; apply elem_of_union; by right).
      simpl. lia.
    + rewrite filter_cons_True by (apply elem_of_union; by right).
      simpl. lia.
    + rewrite filter_cons_False; [lia|].
      intros [[?|?]%elem_of_union|?]%elem_of_union; contradiction.
Qed.

(** X13. No document is duplicated or invented: the three lists together
    have as many elements as there are yielded documents whose [pubmed_id] is
    in some ID set, which is at most the number of documents of the corpus. *)
Theorem read_full_med_mentions_counts (fs : filesystem) (directory : string)
    (label_mapping : option (gmap string string)) (span_only spacy_format : bool)
    (train dev test : list output) :
  read_full_med_mentions fs directory label_mapping span_only spacy_format
    = Ok (train, dev, test) →
  ∃ train_ids dev_ids test_ids : gset string,
    read_ids fs (path_join directory "corpus_pubtator_pmids_trng.txt") = Ok train_ids
    ∧ read_ids fs (path_join directory "corpus_pubtator_pmids_dev.txt") = Ok dev_ids
    ∧ read_ids fs (path_join directory "corpus_pubtator_pmids_test.txt") = Ok test_ids
    ∧ let documents :=
        yielded (med_mentions_example_iterator fs
                   (path_join directory "corpus_pubtator.txt")) in
      (length train + length dev + length test
       = length (filter (λ d, MedMentionExample.pubmed_id d
                               ∈ train_ids ∪ dev_ids ∪ test_ids) documents))%nat
      ∧ (length train + length dev + length test ≤ length documents)%nat.
Proof.
  unfold read_full_med_mentions. simpl. intros H.
  apply bind_Ok in H as (train_ids & Htr & H).
  apply bind_Ok in H as (dev_ids & Hdv & H).
  apply bind_Ok in H as (test_ids & Hte & H).
  exists train_ids, dev_ids, test_ids. repeat split; try done.
  - apply split_loop_lengths in H. simpl in H. exact H.
  - apply split_loop_lengths in H. simpl in H. rewrite H. apply length_filter.
Qed.

Lemma read_full_med_mentions_counts_witness :
  ∃ train_ids dev_ids test_ids : gset string,
    read_ids sample_fs (path_join "data" "corpus_pubtator_pmids_trng.txt") = Ok train_ids
    ∧ read_ids sample_fs (path_join "data" "corpus_pubtator_pmids_dev.txt") = Ok dev_ids
    ∧ read_ids sample_fs (path_join "data" "corpus_pubtator_pmids_test.txt") = Ok test_ids
    ∧ let documents :=
        yielded (med_mentions_example_iterator sample_fs
                   (path_join "data" "corpus_pubtator.txt")) in
      (length [Record_ doc1; Record_ doc2] + length (@nil output)
         + length [Record_ doc3]
       = length (filter (λ d, MedMentionExample.pubmed_id d
                               ∈ train_ids ∪ dev_ids ∪ test_ids) documents))%nat
      ∧ (length [Record_ doc1; Record_ doc2] + length (@nil output)
           + length [Record_ doc3] ≤ length documents)%nat.
Proof.
  apply (read_full_med_mentions_counts sample_fs "data" None false false).
  vm_compute. reflexivity.
Defined.

(** ** More on the sentence converter *)

Lemma spans_in_order_mono (lo next next' : Z) (spans : list (Z * Z * string)) :
  (next ≤ next')%Z → spans_in_order lo spans next → spans_in_order lo spans next'.
Proof.
  intros Hn. revert lo. induction spans as [|[[s e] t] r IH]; intros lo; simpl.
  - lia.
  - intros (? & ? & ?). repeat split; auto.
Qed.

Lemma spans_in_order_snoc (lo next s e : Z) (t : string)
    (spans : list (Z * Z * string)) :
  (next ≤ s)%Z → (s ≤ e)%Z →
  spans_in_order lo spans next → spans_in_order lo (spans ++ [(s, e, t)]) (e + 2).
Proof.
  intros Hs He. revert lo. induction spans as [|[[s' e'] t'] r IH]; intros lo; simpl.
  - lia.
  - intros (? & ? & ?). repeat split; auto.
Qed.

Lemma spans_in_order_bounds (lo next : Z) (spans : list (Z * Z * string)) :
  spans_in_order lo spans next →
  Forall (λ span, (lo ≤ span.1.1 ∧ span.1.1 ≤ span.1.2 ∧ span.1.2 + 2 ≤ next)%Z) spans.
Proof.
  revert lo. induction spans as [|[[s e] t] r IH]; intros lo; simpl; [constructor|].
  intros (Hlo & Hse & Hr). pose proof (IH _ Hr) as Hall. constructor.
  - simpl. repeat split; try done.
    destruct r as [|[[s2 e2] t2] r]; simpl in Hr; [lia|].
    apply Forall_cons in Hall as [(? & ? & ?) _]. simpl in *. lia.
  - eapply Forall_impl; [exact Hall|]. simpl. intros [[s2 e2] t2]. simpl. lia.
Qed.

Lemma order_invariant_step (st : locals) (we : string * string) :
  order_invariant st → order_invariant (handle_word st we).
Proof.
  destruct we as [w t]. unfold order_invariant, handle_word.
  pose proof (len_nonneg w) as Hw.
  destruct (negb (String.eqb t "O")), (in_entity st); simpl.
  - intros [? ?]. split; [done|lia].
  - intros ?. split; [done|lia].
  - intros [Hord Hle].
    eapply spans_in_order_mono;
      [|eapply (spans_in_order_snoc 0 (start_index st)); [lia|exact Hle|exact Hord]].
    lia.
  - apply spans_in_order_mono. lia.
Qed.

Lemma order_invariant_fold (ex : list (string * string)) (st : locals) :
  order_invariant st → order_invariant (fold_left handle_word ex st).
Proof.
  revert st. induction ex as [|we ex IH]; intros st; cbn [fold_left]; [done|].
  intros ?. by apply IH, order_invariant_step.
Qed.

(** X14. The spans of a sentence come in order and do not touch: every span
    has [0 <= start <= end <= len(sentence)], and each span starts at least
    two characters after the end of the one before. *)
Theorem spans_ordered_and_in_bounds (ex : list (string * string)) :
  let sentence := (_handle_sentence ex).1 in
  let spans := (_handle_sentence ex).2 in
  spans_in_order 0 spans (len sentence + 2)
  ∧ Forall (λ span, (0 ≤ span.1.1 ∧ span.1.1 ≤ span.1.2 ∧ span.1.2 ≤ len sentence)%Z)
           spans.
Proof.
  intros sentence spans.
  assert (Hord : spans_in_order 0 spans (len sentence + 2)).
  { subst sentence spans. rewrite sentence_is_join.
    assert (Hlen : (cursor ex ≤ len (join " " (words ex)) + 1)%Z).
    { destruct ex as [|we ex']; [by vm_compute|].
      rewrite len_join_run by done. lia. }
    unfold _handle_sentence. cbn [snd].
    pose proof (order_invariant_fold ex initial_locals) as Hinv.
    pose proof (fold_current_index ex initial_locals) as Hcur. simpl in Hcur.
    unfold order_invariant in Hinv.
    destruct (in_entity (fold_left handle_word ex initial_locals)).
    - destruct Hinv as [Hord Hle]; [simpl; lia|].
      eapply spans_in_order_mono;
        [|eapply spans_in_order_snoc; [|exact Hle|exact Hord]]; lia.
    - eapply spans_in_order_mono; [|apply Hinv; simpl; lia]. lia. }
  split; [exact Hord|].
  apply spans_in_order_bounds in Hord.
  eapply Forall_impl; [exact Hord|]. simpl. intros span. lia.
Qed.

Lemma shifted_step (c : Z) (before : list (Z * Z * string)) (st st0 : locals)
    (we : string * string) :
  shifted c before st st0 → shifted c before (handle_word st we) (handle_word st0 we).
Proof.
  destruct we as [w t]. intros (Hcur & Hin & Htype & Hstart & Hents).
  unfold shifted, handle_word. rewrite Hin.
  destruct (negb (String.eqb t "O")), (in_entity st0) eqn:Hst0; simpl;
    repeat split; try done; try lia; auto.
  rewrite Hents, map_app, <- app_assoc. cbn [map].
  rewrite (Hstart eq_refl), Hcur, Htype. do 3 f_equal.
  unfold shift. cbn [fst snd]. do 2 f_equal. lia.
Qed.

Lemma shifted_fold (c : Z) (before : list (Z * Z * string))
    (ex : list (string * string)) (st st0 : locals) :
  shifted c before st st0 →
  shifted c before (fold_left handle_word ex st) (fold_left handle_word ex st0).
Proof.
  revert st st0. induction ex as [|we ex IH]; intros st st0; cbn [fold_left]; [done|].
  intros ?. by apply IH, shifted_step.
Qed.

(** X15. Cutting a sentence at a word tagged "O": the spans of the whole are
    the spans of the part before that word, followed by the spans of the part
    after it moved right by the length of what precedes. *)
Theorem spans_of_concatenation (a b : list (string * string)) (w : string) :
  (_handle_sentence (a ++ (w, "O") :: b)).2
  = (_handle_sentence a).2
    ++ map (shift (cursor (a ++ [(w, "O")]))) (_handle_sentence b).2.
Proof.
  unfold _handle_sentence. cbn [snd].
  replace (a ++ (w, "O") :: b) with ((a ++ [(w, "O")]) ++ b)
    by (by rewrite <- app_assoc).
  rewrite (fold_left_app handle_word (a ++ [(w, "O")]) b).
  set (before := if in_entity (fold_left handle_word a initial_locals) then _ else _).
  set (st := fold_left handle_word (a ++ [(w, "O")]) initial_locals).
  assert (Hst : shifted (cursor (a ++ [(w, "O")])) before st initial_locals).
  { subst st before. unfold shifted. rewrite fold_current_index.
    rewrite fold_left_app. cbn [fold_left]. rewrite handle_word_in_entity.
    unfold handle_word. simpl.
    destruct (in_entity (fold_left handle_word a initial_locals));
      repeat split; try done; by rewrite app_nil_r. }
  destruct (shifted_fold _ _ b _ _ Hst) as (Hcur & Hin & Htype & Hstart & Hents).
  rewrite Hin, Hents.
  destruct (in_entity (fold_left handle_word b initial_locals)); [|done].
  rewrite map_app, <- app_assoc. cbn [map].
  rewrite (Hstart eq_refl), Hcur, Htype. do 3 f_equal.
  unfold shift. cbn [fst snd]. do 2 f_equal. lia.
Qed.

Example two_spans_example :
  (_handle_sentence [("New", "B-LOC"); ("York", "I-LOC"); ("and", "O");
                     ("Rome", "B-LOC")]).2
  = [(0%Z, 8%Z, "LOC"); (13%Z, 17%Z, "LOC")].
Proof. vm_compute. reflexivity. Qed.

Lemma no_nonO_no_span (ex : list (string * string)) (st : locals) :
  Forall (λ we, we.2 = "O") ex → in_entity st = false →
  in_entity (fold_left handle_word ex st) = false
  ∧ entities (fold_left handle_word ex st) = entities st.
Proof.
  intros Hall. revert st. induction Hall as [|[w t] ex Ht _ IH]; intros st Hst; [done|].
  cbn [fold_left]. simpl in Ht. subst t.
  destruct (IH (handle_word st (w, "O"))) as [-> ->].
  - by rewrite handle_word_in_entity.
  - split; [done|]. unfold handle_word. simpl. by rewrite Hst.
Qed.

Lemma nonO_leaves_trace (p : list (string * string)) :
  Exists nonO p →
  in_entity (fold_left handle_word p initial_locals) = true
  ∨ entities (fold_left handle_word p initial_locals) ≠ [].
Proof.
  induction p as [|[w t] p IH] using rev_ind; [by intros ?%Exists_nil|].
  intros Hex. rewrite fold_left_app. cbn [fold_left].
  set (st := fold_left handle_word p initial_locals) in *.
  destruct (String.eqb_spec t "O") as [->|Ht].
  - right. apply Exists_app in Hex as [Hex|Hex].
    + unfold handle_word. cbn [String.eqb Ascii.eqb Bool.eqb negb andb entities].
      destruct (IH Hex) as [Hin|Hne].
      * rewrite Hin. by destruct (entities st).
      * destruct (in_entity st); [by destruct (entities st)|done].
    + apply Exists_cons in Hex as [Hw|?%Exists_nil]; [|done]. by destruct Hw.
  - left. rewrite handle_word_in_entity. simpl.
    by destruct (String.eqb_spec t "O").
Qed.

(** X16. A sentence has no span exactly when every tag is "O". *)
Theorem no_span_iff_all_O (ex : list (string * string)) :
  (_handle_sentence ex).2 = [] ↔ Forall (λ we, we.2 = "O") ex.
Proof.
  unfold _handle_sentence. cbn [snd]. split.
  - intros Hnil. apply Forall_forall. intros we Hwe.
    destruct (decide (we.2 = "O")) as [|Hne]; [done|]. exfalso.
    destruct (nonO_leaves_trace ex) as [Hin|Hents].
    + apply Exists_exists. by exists we.
    + rewrite Hin in Hnil. by destruct (entities _).
    + destruct (in_entity _); [by destruct (entities _)|done].
  - intros Hall.
    destruct (no_nonO_no_span ex initial_locals Hall eq_refl) as [-> ->]. done.
Qed.

Lemma no_span_iff_all_O_witness :
  (_handle_sentence [("He", "O"); ("died", "O")]).2 = [].
Proof.
  apply (proj2 (no_span_iff_all_O [("He", "O"); ("died", "O")])).
  by repeat constructor.
Defined.

(** ** More on the stream reader *)







(** X18. A line that starts with "-DOCSTART-" once stripped is skipped with
    no effect at all, wherever it stands: the file reads as if the line were
    not there (so such a line inside a sentence does not end the sentence). *)
Theorem read_ner_from_tsv_docstart (pre : list string) (docstart : string)
    (post : list string) :
  startswith (strip docstart) "-DOCSTART-" = true →
  read_ner_from_tsv (pre ++ docstart :: post) = read_ner_from_tsv (pre ++ post).
Proof.
  intros Hd. unfold read_ner_from_tsv. generalize (@nil SpacyNerExample).
  generalize (@nil (string * string)).
  induction pre as [|l pre IH]; intros examples data.
  - cbn [app read_ner_lines]. by rewrite Hd.
  - cbn [app read_ner_lines].
    destruct (startswith (strip l) "-DOCSTART-"); [apply IH|].
    destruct (strip l) as [|c s].
    + destruct examples; apply IH.
    + destruct (split "009" (-1) (String c s)) as [|? [|? [|]]];
        first [reflexivity | apply IH].
Qed.

Lemma read_ner_from_tsv_docstart_witness :
  read_ner_from_tsv ([ "He" +:+ TAB +:+ "O" +:+ NL ]
                       ++ ("-DOCSTART- -X- O O" +:+ NL)
                       :: [ "died" +:+ TAB +:+ "O" +:+ NL ])
  = read_ner_from_tsv ([ "He" +:+ TAB +:+ "O" +:+ NL ]
                         ++ [ "died" +:+ TAB +:+ "O" +:+ NL ]).
Proof.
  apply (read_ner_from_tsv_docstart [ "He" +:+ TAB +:+ "O" +:+ NL ]
           ("-DOCSTART- -X- O O" +:+ NL) [ "died" +:+ TAB +:+ "O" +:+ NL ]).
  reflexivity.
Defined.

Lemma read_ner_lines_prefix (file : list string) :
  ∀ before data examples,
    read_ner_lines file (before ++ data) examples
    = bind (read_ner_lines file data examples) (λ res, Ok (before ++ res)).
Proof.
  induction file as [|l file IH]; intros before data examples; cbn [read_ner_lines].
  - destruct examples; cbn [bind]; [done|]. by rewrite <- app_assoc.
  - destruct (startswith (strip l) "-DOCSTART-"); [apply IH|].
    destruct (strip l) as [|c s].
    + destruct examples; [apply IH|]. rewrite <- app_assoc. apply IH.
    + destruct (split "009" (-1) (String c s)) as [|? [|? [|]]];
        first [reflexivity | apply IH].
Qed.

Lemma read_ner_lines_flush (file1 : list string) (blank : string) (file2 : list string) :
  strip blank = EmptyString →
  ∀ data examples,
    read_ner_lines (file1 ++ blank :: file2) data examples
    = bind (read_ner_lines file1 data examples)
           (λ data1, read_ner_lines file2 data1 []).
Proof.
  intros Hb. induction file1 as [|l file1 IH]; intros data examples;
    cbn [app read_ner_lines].
  - rewrite Hb. simpl. by destruct examples.
  - destruct (startswith (strip l) "-DOCSTART-"); [apply IH|].
    destruct (strip l) as [|c s].
    + destruct examples; apply IH.
    + destruct (split "009" (-1) (String c s)) as [|? [|? [|]]];
        first [reflexivity | apply IH].
Qed.

(** X19. Two files joined by a blank line read as the first followed by the
    second: the result is the concatenation of the two results, and the
    exception of the first, else of the second, if one of them raises. *)
Theorem read_ner_from_tsv_concat (file1 : list string) (blank : string)
    (file2 : list string) :
  strip blank = EmptyString →
  read_ner_from_tsv (file1 ++ blank :: file2)
  = bind (read_ner_from_tsv file1)
         (λ data1, bind (read_ner_from_tsv file2) (λ data2, Ok (data1 ++ data2))).
Proof.
  intros Hb. unfold read_ner_from_tsv.
  rewrite (read_ner_lines_flush file1 blank file2 Hb).
  destruct (read_ner_lines file1 [] []) as [data1|e]; cbn [bind]; [|done].
  rewrite <- (app_nil_r data1) at 1. apply read_ner_lines_prefix.
Qed.

Lemma read_ner_from_tsv_concat_witness :
  read_ner_from_tsv ([ "He" +:+ TAB +:+ "O" +:+ NL ] ++ NL
                       :: [ "Rome" +:+ TAB +:+ "B-LOC" +:+ NL ])
  = Ok [("He", []); ("Rome", [(0%Z, 4%Z, "LOC")])].
Proof.
  refine (eq_trans (read_ner_from_tsv_concat [ "He" +:+ TAB +:+ "O" +:+ NL ] NL
                      [ "Rome" +:+ TAB +:+ "B-LOC" +:+ NL ] eq_refl) _).
  reflexivity.
Defined.

(** *** Writing a sentence and reading it back *)







